(** * Policy-override charm tests (zaza.openstack.charm_tests.policyd.tests)

    A shallow embedding of the policyd test protocol: the test methods of
    [PolicydTest] and [KeystonePolicydTest] are monadic programs over the
    state the test itself controls (application configuration, attached
    resources, the scratch directory, the list of calls issued), run against
    an arbitrary history of the deployed model (status lines, unit file
    systems, keystone answers), which the tests only observe. *)

From stdpp Require Import gmap strings list fin_maps.

Open Scope string_scope.
Open Scope list_scope.

(** ** Python string and path primitives *)

(** [s.startswith(pre)] *)
Definition startswith (s pre : string) : bool := String.prefix pre s.

(** [s.endswith(suf)] *)
Fixpoint endswith (s suf : string) : bool :=
  if String.eqb s suf then true
  else match s with
       | EmptyString => false
       | String _ s' => endswith s' suf
       end.

(** [sub in s] *)
Fixpoint str_in (sub s : string) : bool :=
  String.prefix sub s ||
  match s with
  | EmptyString => false
  | String _ s' => str_in sub s'
  end.

(** [s.replace(old, new)] for a non-empty [old]: every occurrence, scanning
    from the left, occurrences not overlapping.  [skip] counts the characters
    of the occurrence being replaced that are still to be dropped. *)
Fixpoint replace_from (old new : string) (skip : nat) (s : string) : string :=
  match s with
  | EmptyString => EmptyString
  | String c s' =>
      match skip with
      | S k => replace_from old new k s'
      | O =>
          if String.prefix old s
          then new +:+ replace_from old new (String.length old - 1) s'
          else String c (replace_from old new 0 s')
      end
  end.

(** For the empty [old] Python puts [new] before every character and at the
    end. *)
Fixpoint intersperse_str (new s : string) : string :=
  match s with
  | EmptyString => new
  | String c s' => new +:+ String c (intersperse_str new s')
  end.

Definition str_replace (s old new : string) : string :=
  match old with
  | EmptyString => intersperse_str new s
  | _ => replace_from old new 0 s
  end.

(** One round of the loop of [posixpath.join]. *)
Definition join_step (path b : string) : string :=
  if startswith b "/" then b
  else if String.eqb path "" || endswith path "/" then path +:+ b
  else path +:+ "/" +:+ b.

(** [os.path.join(a, *p)] *)
Definition os_path_join (a : string) (p : list string) : string :=
  foldl join_step a p.

(** ** Exceptions

    The part of the [Exception] hierarchy the tests meet. *)
Inductive exn : Type :=
| Forbidden                      (* keystoneauth1.exceptions.http.Forbidden *)
| KeystoneFailure (what : string) (* any other failure of the keystone call *)
| PolicydError (msg : string)    (* zaza_exceptions.PolicydError *)
| ModelTimeout                   (* a zaza.model block_until_* gave up *)
| AttributeError (name : string)
| OSError (path : string).

(** ** The zip archive

    A [zipfile.ZipFile] is kept as the list of its entries in the order they
    were written; [NameToInfo] is the dictionary the reader looks names up
    in, where a later entry of the same name replaces an earlier one. *)
Definition archive : Type := list (string * string).

Definition writestr (zfp : archive) (name contents : string) : archive :=
  zfp ++ [(name, contents)].


Definition NameToInfo (zfp : archive) : gmap string string :=
  foldl (fun d e => <[e.1 := e.2]> d) ∅ zfp.

Definition zip_read (zfp : archive) (name : string) : option string :=
  NameToInfo zfp !! name.

(** [for name, contents in items: zfp.writestr(name, contents)] *)
Definition write_all (zfp : archive) (items : list (string * string))
    : archive :=
  foldl (fun zfp item => writestr zfp item.1 item.2) zfp items.

(** ** What the tests observe: the deployed model *)

Record unit_view : Type := {
  address : string;
  files : gmap string string             (* remote path -> file contents *)
}.

(** The answer of [keystone_client.services.list()]. *)
Inductive api_result : Type :=
| Listed
| Failed (e : exn).

Record snapshot : Type := {
  wl_status_info : string -> string;     (* application -> status info line *)
  units : string -> list unit_view;      (* application -> its units *)
  all_units_idle : bool;
  services_list : gmap string string -> api_result  (* by openrc *)
}.

(** Constants of sibling modules ([ch_keystone], [openstack_utils]). *)
Record constants : Type := {
  DEMO_ADMIN_USER : string;
  DEMO_ADMIN_USER_PASSWORD : string;
  DEMO_DOMAIN : string;
  KEYSTONE_LOCAL_CACERT : string
}.

(** The environment of a run: the history of the model, one snapshot per
    observation, the number of polls a [block_until_*] makes before it gives
    up, the error (if any) with which the operating system refuses to remove
    a local path, and the constants. *)
Record env : Type := {
  world : nat -> snapshot;
  max_polls : nat;
  rm_fails : string -> option exn;
  consts : constants
}.

(** ** What the tests control *)

Inductive call : Type :=
| SetApplicationConfig (app : string) (config : gmap string string)
| AttachResource (app resource path : string)
| BlockUntilAllUnitsIdle
| BlockUntilWlStatusInfoStartsWith (app status : string) (negate_match : bool)
| BlockUntilFileHasContents (app path contents : string)
| BlockUntilFileMissing (app path : string)
| ConfigChangeEnter (app : string) (default alternate : gmap string string)
| ConfigChangeExit (app : string) (default alternate : gmap string string)
| ServicesList (openrc : gmap string string).

Record state : Type := {
  clock : nat;                                  (* observations made so far *)
  app_config : gmap string (gmap string string);
  attached : gmap (string * string) archive;    (* (app, resource) -> upload *)
  scratch : gmap string archive;                (* local zip files by path *)
  trace : list call                             (* calls issued, in order *)
}.

(** The attributes of the test class and instance the methods read. *)
Record test_case : Type := {
  application_name : string;
  _tmp_dir : option string;      (* [None]: the attribute was never set *)
  _service_name : string;
  keystone_ips : list string;
  tls_rid : option string;
  default_api_version : string
}.

(** ** The monad of test code: state and exceptions *)

Inductive result (A : Type) : Type :=
| Ok (a : A) (s : state)
| Raise (e : exn) (s : state).
Arguments Ok {A} a s.
Arguments Raise {A} e s.

Definition M (A : Type) : Type := state -> result A.

Definition ret {A} (a : A) : M A := fun s => Ok a s.

Definition bind {A B} (f : A -> M B) (m : M A) : M B :=
  fun s => match m s with
           | Ok a s' => f a s'
           | Raise e s' => Raise e s'
           end.

Definition raise {A} (e : exn) : M A := fun s => Raise e s.

#[global] Instance M_ret : MRet M := @ret.
#[global] Instance M_bind : MBind M := @bind.

(** [try: body except <handled>: handler]; [handler e = None] when the
    except clause does not match [e]. *)
Definition try_except {A} (body : M A) (handler : exn -> option (M A)) : M A :=
  fun s => match body s with
           | Ok a s' => Ok a s'
           | Raise e s' =>
               match handler e with
               | Some h => h s'
               | None => Raise e s'
               end
           end.

(** [for x in l: body x] *)
Fixpoint for_each {A} (l : list A) (body : A -> M unit) : M unit :=
  match l with
  | [] => ret tt
  | x :: l' => body x ;; for_each l' body
  end.

Definition record_call (c : call) (s : state) : state :=
  {| clock := clock s; app_config := app_config s; attached := attached s;
     scratch := scratch s; trace := trace s ++ [c] |}.

Definition set_clock (t : nat) (s : state) : state :=
  {| clock := t; app_config := app_config s; attached := attached s;
     scratch := scratch s; trace := trace s |}.

Definition tick (s : state) : state := set_clock (S (clock s)) s.

Definition update_config (app : string) (config : gmap string string)
    (s : state) : state :=
  {| clock := clock s;
     app_config :=
       <[app := config ∪ default ∅ (app_config s !! app)]> (app_config s);
     attached := attached s; scratch := scratch s; trace := trace s |}.

Definition set_attached (app resource : string) (zfp : archive)
    (s : state) : state :=
  {| clock := clock s; app_config := app_config s;
     attached := <[(app, resource) := zfp]> (attached s);
     scratch := scratch s; trace := trace s |}.

Definition set_scratch (fs : gmap string archive) (s : state) : state :=
  {| clock := clock s; app_config := app_config s; attached := attached s;
     scratch := fs; trace := trace s |}.

(** ** The predicates the blocking calls of [zaza.model] wait for *)

(** Modelled from the spec: the status check of
    [block_until_wl_status_info_starts_with] (section 4.3): the status
    info line of the application starts with the prefix, or, negated, does
    not. *)
Definition wl_status_matches (app status : string) (negate_match : bool)
    (w : snapshot) : bool :=
  if negate_match then negb (startswith (wl_status_info w app) status)
  else startswith (wl_status_info w app) status.

(** Modelled from the spec: the file checks of section 4.4 hold when they
    hold on every unit of the application. *)
Definition file_has_contents (app path contents : string)
    (w : snapshot) : bool :=
  forallb (fun u => match files u !! path with
                    | Some c => str_in contents c
                    | None => false
                    end) (units w app).

Definition file_missing (app path : string) (w : snapshot) : bool :=
  forallb (fun u => match files u !! path with
                    | Some _ => false
                    | None => true
                    end) (units w app).

(** ** The calls into [zaza.model], the keystone client and the file system *)

Section Protocol.

Variable E : env.

(** Modelled from the spec: the Predicate Poller (section 4.2).  The
    predicate is tried on the snapshots [t], [t+1], ... and the index of the
    first one that satisfies it is returned; [None] after [fuel] tries. *)
Fixpoint poll (pred : snapshot -> bool) (fuel t : nat) : option nat :=
  match fuel with
  | O => None
  | S fuel' => if pred (world E t) then Some t else poll pred fuel' (S t)
  end.

Definition block_until (c : call) (pred : snapshot -> bool) : M unit :=
  fun s =>
    let s1 := record_call c s in
    match poll pred (max_polls E) (clock s) with
    | Some t => Ok tt (set_clock (S t) s1)
    | None => Raise ModelTimeout (set_clock (clock s + max_polls E) s1)
    end.

Definition set_application_config (app : string)
    (config : gmap string string) : M unit :=
  fun s =>
    Ok tt (tick (update_config app config
                   (record_call (SetApplicationConfig app config) s))).

(** The resource is uploaded from the local file at [path]. *)
Definition attach_resource (app resource path : string) : M unit :=
  fun s =>
    let s1 := record_call (AttachResource app resource path) s in
    match scratch s !! path with
    | Some zfp => Ok tt (tick (set_attached app resource zfp s1))
    | None => Raise (OSError path) s1
    end.

Definition block_until_all_units_idle : M unit :=
  block_until BlockUntilAllUnitsIdle all_units_idle.

Definition block_until_wl_status_info_starts_with (app status : string)
    (negate_match : bool) : M unit :=
  block_until (BlockUntilWlStatusInfoStartsWith app status negate_match)
              (wl_status_matches app status negate_match).

Definition block_until_file_has_contents (app path contents : string)
    : M unit :=
  block_until (BlockUntilFileHasContents app path contents)
              (file_has_contents app path contents).

Definition block_until_file_missing (app path : string) : M unit :=
  block_until (BlockUntilFileMissing app path) (file_missing app path).

(** [keystone_client.services.list()] on a client opened with [openrc]. *)
Definition keystone_services_list (openrc : gmap string string) : M unit :=
  fun s =>
    let s1 := tick (record_call (ServicesList openrc) s) in
    match services_list (world E (clock s)) openrc with
    | Listed => Ok tt s1
    | Failed e => Raise e s1
    end.

(** [test_utils.config_change] is used as the source relies on it (comments
    at lines 224 and 264): the alternate configuration holds inside the
    block and the default one is restored when the block is left. *)
Definition config_change_enter (app : string)
    (default alternate : gmap string string) : M unit :=
  fun s =>
    Ok tt (tick (update_config app alternate
                   (record_call (ConfigChangeEnter app default alternate) s))).

Definition config_change_exit (app : string)
    (default alternate : gmap string string) : M unit :=
  fun s =>
    Ok tt (tick (update_config app default
                   (record_call (ConfigChangeExit app default alternate) s))).

Definition with_config_change (app : string)
    (default alternate : gmap string string) (body : M unit) : M unit :=
  config_change_enter app default alternate ;;
  body ;;
  config_change_exit app default alternate.

(** ** PolicydTest *)

(** Reading [self._tmp_dir]. *)
Definition get_tmp_dir (self : test_case) : M string :=
  match _tmp_dir self with
  | Some d => mret d
  | None => raise (AttributeError "_tmp_dir")
  end.

Definition _set_config (self : test_case) (state : bool) : M unit :=
  let s := if state then "True" else "False" in
  let config : gmap string string := {[ "use-policyd-override" := s ]} in
  set_application_config (application_name self) config.

(** Leaving the [with zipfile.ZipFile(path, "w")] block leaves the archive
    at [path], in place of whatever was there. *)
Definition zip_close (path : string) (zfp : archive) : M unit :=
  fun s => Ok tt (set_scratch (<[path := zfp]> (scratch s)) s).

(** [zipfile.ZipFile(path, "w")] starts from an empty archive. *)
Definition _make_zip_file_from (self : test_case) (name : string)
    (files : gmap string string) : M string :=
  d ← get_tmp_dir self;
  let path := os_path_join d [name] in
  let zfp := write_all [] (map_to_list files) in
  zip_close path zfp ;;
  mret path.

Definition _set_policy_with (self : test_case)
    (rules : gmap string string) : M unit :=
  rules_zip_path ← _make_zip_file_from self "rules.zip" rules;
  attach_resource (application_name self) "policyd-override" rules_zip_path ;;
  _set_config self true ;;
  block_until_wl_status_info_starts_with (application_name self) "PO:" true.

Definition good : gmap string string := {[ "file1.yaml" := "{'rule1': '!'}" ]}.

Definition test_001_policyd_good_yaml (self : test_case) : M unit :=
  good_zip_path ← _make_zip_file_from self "good.zip" good;
  attach_resource (application_name self) "policyd-override" good_zip_path ;;
  block_until_all_units_idle ;;
  _set_config self true ;;
  let path :=
    os_path_join "/etc" [_service_name self; "policy.d"; "file1.yaml"] in
  block_until_file_has_contents (application_name self) path "rule1: '!'" ;;
  block_until_wl_status_info_starts_with (application_name self) "PO:" false ;;
  _set_config self false ;;
  block_until_wl_status_info_starts_with (application_name self) "PO:" true ;;
  block_until_all_units_idle ;;
  block_until_wl_status_info_starts_with (application_name self) "PO:" true ;;
  block_until_file_missing (application_name self) path.

Definition bad : gmap string string := {[ "file2.yaml" := "{'rule': '!}" ]}.

Definition test_002_policyd_bad_yaml (self : test_case) : M unit :=
  bad_zip_path ← _make_zip_file_from self "bad.zip" bad;
  attach_resource (application_name self) "policyd-override" bad_zip_path ;;
  block_until_all_units_idle ;;
  _set_config self true ;;
  block_until_wl_status_info_starts_with
    (application_name self) "PO (broken):" false ;;
  block_until_all_units_idle ;;
  let path :=
    os_path_join "/etc" [_service_name self; "policy.d"; "file2.yaml"] in
  block_until_file_missing (application_name self) path ;;
  _set_config self true ;;
  block_until_all_units_idle.

(** ** KeystonePolicydTest *)

(** [if self.tls_rid:] *)
Definition truthy (o : option string) : bool :=
  match o with
  | Some r => negb (String.eqb r "")
  | None => false
  end.

Definition openrc_for (self : test_case) (ip : string) : gmap string string :=
  let openrc : gmap string string :=
    <["OS_DOMAIN_NAME" := DEMO_DOMAIN (consts E)]>
    (<["OS_USER_DOMAIN_NAME" := DEMO_DOMAIN (consts E)]>
    (<["OS_AUTH_URL" := "http://" +:+ ip +:+ ":5000/v3"]>
    (<["OS_PASSWORD" := DEMO_ADMIN_USER_PASSWORD (consts E)]>
    (<["OS_USERNAME" := DEMO_ADMIN_USER (consts E)]>
    {[ "API_VERSION" := "3" ]})))) in
  if truthy (tls_rid self) then
    let openrc := <["OS_CACERT" := KEYSTONE_LOCAL_CACERT (consts E)]> openrc in
    <["OS_AUTH_URL" :=
        str_replace (default "" (openrc !! "OS_AUTH_URL")) "http" "https"]>
      openrc
  else openrc.

Definition should_have_failed (ip : string) : string :=
  "Retrieve service list as admin with project scoped token passed and "
  +:+ "should have failed. IP = " +:+ ip.

Definition should_have_passed (ip : string) : string :=
  "Retrieve services list as demo user with project scoped token passed "
  +:+ "and should have passed. IP = " +:+ ip.

(** [except keystoneauth1.exceptions.http.Forbidden:] *)
Definition except_Forbidden (handler : M unit) (e : exn) : option (M unit) :=
  match e with
  | Forbidden => Some handler
  | _ => None
  end.

(** The body of the first loop (override enabled). *)
Definition probe_override_enabled (self : test_case) (ip : string) : M unit :=
  try_except
    (keystone_services_list (openrc_for self ip) ;;
     raise (PolicydError (should_have_failed ip)))
    (except_Forbidden (mret tt)).

(** The body of the second loop (override off). *)
Definition probe_override_disabled (self : test_case) (ip : string) : M unit :=
  try_except
    (keystone_services_list (openrc_for self ip))
    (except_Forbidden (raise (PolicydError (should_have_passed ip)))).

Definition list_services_rule : gmap string string :=
  {[ "rule.yaml" := "{'identity:list_services': '!'}" ]}.

Definition test_disable_service (self : test_case) : M unit :=
  _set_policy_with self list_services_rule ;;
  with_config_change "keystone"
    (<["use-policyd-override" := "False"]>
       {[ "preferred-api-version" := default_api_version self ]})
    (<["use-policyd-override" := "True"]>
       {[ "preferred-api-version" := "3" ]})
    (block_until_all_units_idle ;;
     for_each (keystone_ips self) (probe_override_enabled self)) ;;
  with_config_change "keystone"
    {[ "preferred-api-version" := default_api_version self ]}
    {[ "preferred-api-version" := "3" ]}
    (block_until_all_units_idle ;;
     for_each (keystone_ips self) (probe_override_disabled self)).

(** ** Class teardown *)

(** Local files below the directory [dir]. *)
Definition under (dir path : string) : bool := startswith path (dir +:+ "/").

Definition unlink (path : string) : M unit :=
  fun s => Ok tt (set_scratch (delete path (scratch s)) s).

(** [onerror] of [shutil.rmtree]: nothing when errors are ignored, else the
    error is raised. *)
Definition onerror (ignore_errors : bool) (e : exn) : M unit :=
  if ignore_errors then mret tt else raise e.

Fixpoint remove_files (ignore_errors : bool) (paths : list string) : M unit :=
  match paths with
  | [] => mret tt
  | p :: paths' =>
      match rm_fails E p with
      | None => unlink p
      | Some e => onerror ignore_errors e
      end ;;
      remove_files ignore_errors paths'
  end.

(** [os.rmdir] of the top directory: refused by the system, or because a
    file is left in it. *)
Definition rmdir (ignore_errors : bool) (dir : string) : M unit :=
  fun s =>
    if existsb (under dir) (map_to_list (scratch s)).*1
    then onerror ignore_errors (OSError dir) s
    else Ok tt s.

(** [shutil.rmtree(path, ignore_errors)] *)
Definition rmtree (path : string) (ignore_errors : bool) : M unit :=
  match rm_fails E path with
  | Some e => onerror ignore_errors e
  | None =>
      (fun s => remove_files ignore_errors
                  (filter (fun p => under path p = true)
                          (map_to_list (scratch s)).*1) s) ;;
      rmdir ignore_errors path
  end.

(** [tearDownClass]; [super_tearDownClass] is the inherited one.  Every
    exception of the model is an [Exception], so the handler takes them
    all; it only logs. *)
Definition tearDownClass (super_tearDownClass : M unit) (cls : test_case)
    : M unit :=
  super_tearDownClass ;;
  try_except
    (d ← get_tmp_dir cls; rmtree d true)
    (fun _ => Some (mret tt)).

End Protocol.

(** The test methods of [KeystonePolicydTest]. *)
Inductive test_method : Type :=
| Test001PolicydGoodYaml
| Test002PolicydBadYaml
| TestDisableService.

Definition run_test (E : env) (self : test_case) (m : test_method) : M unit :=
  match m with
  | Test001PolicydGoodYaml => test_001_policyd_good_yaml E self
  | Test002PolicydBadYaml => test_002_policyd_bad_yaml E self
  | TestDisableService => test_disable_service E self
  end.

(** ** Disable transitions in a list of calls *)

Definition sets_override_off (config : gmap string string) : bool :=
  bool_decide (config !! "use-policyd-override" = Some "False").

(** The call made by [_set_config(False)]. *)
Definition is_set_config_off (c : call) : bool :=
  match c with
  | SetApplicationConfig _ config => sets_override_off config
  | _ => false
  end.

(** Leaving a [config_change] block whose default configuration has the
    override off. *)
Definition is_restore_off (c : call) : bool :=
  match c with
  | ConfigChangeExit _ default _ => sets_override_off default
  | _ => false
  end.

Definition is_disable (c : call) : bool :=
  is_set_config_off c || is_restore_off c.

(** The next calls are the three-step check of the [PO:] prefix and then the
    check that a file is missing. *)
Definition double_check_follows (rest : list call) : bool :=
  match rest with
  | BlockUntilWlStatusInfoStartsWith a1 p1 true
      :: BlockUntilAllUnitsIdle
      :: BlockUntilWlStatusInfoStartsWith a2 p2 true
      :: BlockUntilFileMissing a3 _ :: _ =>
      String.eqb p1 "PO:" && String.eqb p2 "PO:"
      && String.eqb a1 a2 && String.eqb a2 a3
  | _ => false
  end.

(** Every call of the list that [disable] selects is followed at once by the
    double check. *)
Fixpoint disables_double_checked (disable : call -> bool)
    (calls : list call) : bool :=
  match calls with
  | [] => true
  | c :: rest =>
      (if disable c then double_check_follows rest else true)
      && disables_double_checked disable rest
  end.

(** ** Recorded deployments

    Concrete histories of a two-unit keystone deployment, on which the test
    methods are run. *)

Definition demo_consts : constants :=
  {| DEMO_ADMIN_USER := "demo_admin";
     DEMO_ADMIN_USER_PASSWORD := "password";
     DEMO_DOMAIN := "demo_domain";
     KEYSTONE_LOCAL_CACERT := "/tmp/keystone_juju_ca_cert.crt" |}.

Definition keystone_case : test_case :=
  {| application_name := "keystone";
     _tmp_dir := Some "/tmp/tmpk9x2";
     _service_name := "keystone";
     keystone_ips := ["10.5.0.11"; "10.5.0.12"];
     tls_rid := None;
     default_api_version := "2" |}.

Definition fresh : state :=
  {| clock := 0; app_config := ∅; attached := ∅; scratch := ∅; trace := [] |}.

(** Both units show the same files; every application the same status. *)
Definition deployment (info : string) (fs : gmap string string)
    (api : api_result) : snapshot :=
  {| wl_status_info := fun _ => info;
     units := fun _ => [ {| address := "10.5.0.11"; files := fs |};
                         {| address := "10.5.0.12"; files := fs |} ];
     all_units_idle := true;
     services_list := fun _ => api |}.

Definition plain : snapshot := deployment "Unit is ready" ∅ Listed.

Definition overridden (path contents : string) : snapshot :=
  deployment "PO: Unit is ready" {[ path := contents ]} (Failed Forbidden).

Definition broken : snapshot :=
  deployment "PO (broken): Unit is ready" ∅ Listed.

Definition recorded (h : nat -> snapshot) : env :=
  {| world := h; max_polls := 5; rm_fails := fun _ => None;
     consts := demo_consts |}.

(** The override is active from observation 5 up to observation 8. *)
Definition good_run : env :=
  recorded (fun t =>
    if (t <? 5)%nat then plain
    else if (t <? 9)%nat
         then overridden "/etc/keystone/policy.d/file1.yaml" "rule1: '!'"
         else plain).

(** The charm reports the broken bundle from observation 4 on. *)
Definition bad_run : env :=
  recorded (fun t => if (t <? 4)%nat then plain else broken).

(** The keystone policy is in force from observation 3 up to observation 7. *)
Definition keystone_run : env :=
  recorded (fun t =>
    if (t <? 3)%nat then plain
    else if (t <? 8)%nat
         then overridden "/etc/keystone/policy.d/rule.yaml"
                         "identity:list_services: '!'"
         else plain).

(** A deployment on which the override never becomes active. *)
Definition quiet_run : env := recorded (fun _ => plain).

(** A deployment on which the keystone policy, in force from observation 3,
    is never withdrawn. *)
Definition stuck_run : env :=
  recorded (fun t =>
    if (t <? 3)%nat then plain
    else overridden "/etc/keystone/policy.d/rule.yaml"
                    "identity:list_services: '!'").

(** The override was switched off before the test. *)
Definition override_off : state :=
  {| clock := 0;
     app_config := {[ "keystone" := {[ "use-policyd-override" := "False" ]} ]};
     attached := ∅; scratch := ∅; trace := [] |}.

(** [unittest.TestCase.tearDownClass], which does nothing. *)
Definition TestCase_tearDownClass : M unit := ret tt.

(** An operating system that refuses to remove anything. *)
Definition refusing : env :=
  {| world := fun _ => plain; max_polls := 5;
     rm_fails := fun p => Some (OSError p); consts := demo_consts |}.

(** The zip files of the two generic tests are still in the temporary
    directory. *)
Definition left_behind : state :=
  {| clock := 0; app_config := ∅; attached := ∅;
     scratch := <["/tmp/tmpk9x2/good.zip" := map_to_list good]>
                  {[ "/tmp/tmpk9x2/bad.zip" := map_to_list bad ]};
     trace := [] |}.

(** A class whose [setUpClass] never set the temporary directory. *)
Definition unset_case : test_case :=
  {| application_name := "keystone"; _tmp_dir := None;
     _service_name := "keystone"; keystone_ips := [];
     tls_rid := None; default_api_version := "2" |}.

(** The state a run ends in, however it ends. *)
Definition final_state {A} (r : result A) : state :=
  match r with
  | Ok _ s => s
  | Raise _ s => s
  end.

(** ** The calls of passing runs *)

(** The calls of a passing [test_001_policyd_good_yaml], [path] being the
    path of the zip file. *)
Definition test_001_calls (self : test_case) (path : string) : list call :=
  let app := application_name self in
  let file :=
    os_path_join "/etc" [_service_name self; "policy.d"; "file1.yaml"] in
  [ AttachResource app "policyd-override" path;
    BlockUntilAllUnitsIdle;
    SetApplicationConfig app {[ "use-policyd-override" := "True" ]};
    BlockUntilFileHasContents app file "rule1: '!'";
    BlockUntilWlStatusInfoStartsWith app "PO:" false;
    SetApplicationConfig app {[ "use-policyd-override" := "False" ]};
    BlockUntilWlStatusInfoStartsWith app "PO:" true;
    BlockUntilAllUnitsIdle;
    BlockUntilWlStatusInfoStartsWith app "PO:" true;
    BlockUntilFileMissing app file ].

Definition test_002_calls (self : test_case) (path : string) : list call :=
  let app := application_name self in
  let file :=
    os_path_join "/etc" [_service_name self; "policy.d"; "file2.yaml"] in
  [ AttachResource app "policyd-override" path;
    BlockUntilAllUnitsIdle;
    SetApplicationConfig app {[ "use-policyd-override" := "True" ]};
    BlockUntilWlStatusInfoStartsWith app "PO (broken):" false;
    BlockUntilAllUnitsIdle;
    BlockUntilFileMissing app file;
    SetApplicationConfig app {[ "use-policyd-override" := "True" ]};
    BlockUntilAllUnitsIdle ].

(** The calls of a passing [test_disable_service]. *)
Definition probes (E : env) (self : test_case) : list call :=
  map (fun ip => ServicesList (openrc_for E self ip)) (keystone_ips self).

Definition test_disable_service_calls (E : env) (self : test_case)
    (path : string) : list call :=
  [ AttachResource (application_name self) "policyd-override" path;
    SetApplicationConfig (application_name self)
      {[ "use-policyd-override" := "True" ]};
    BlockUntilWlStatusInfoStartsWith (application_name self) "PO:" true;
    ConfigChangeEnter "keystone"
      (<["use-policyd-override" := "False"]>
         {[ "preferred-api-version" := default_api_version self ]})
      (<["use-policyd-override" := "True"]>
         {[ "preferred-api-version" := "3" ]});
    BlockUntilAllUnitsIdle ]
  ++ probes E self
  ++ [ ConfigChangeExit "keystone"
         (<["use-policyd-override" := "False"]>
            {[ "preferred-api-version" := default_api_version self ]})
         (<["use-policyd-override" := "True"]>
            {[ "preferred-api-version" := "3" ]});
       ConfigChangeEnter "keystone"
         {[ "preferred-api-version" := default_api_version self ]}
         {[ "preferred-api-version" := "3" ]};
       BlockUntilAllUnitsIdle ]
  ++ probes E self
  ++ [ ConfigChangeExit "keystone"
         {[ "preferred-api-version" := default_api_version self ]}
         {[ "preferred-api-version" := "3" ]} ].


(** ** Waits *)



(** A piece of test code that returns normally from every state. *)
Definition always_Ok (m : M unit) : Prop :=
  forall s, exists s', m s = Ok tt s'.

(** A keystone class without unit addresses. *)
Definition no_units_case : test_case :=
  {| application_name := "keystone";
     _tmp_dir := Some "/tmp/tmpk9x2";
     _service_name := "keystone";
     keystone_ips := [];
     tls_rid := None;
     default_api_version := "2" |}.

(** A keystone class related to a TLS certificates provider. *)
Definition tls_case : test_case :=
  {| application_name := "keystone";
     _tmp_dir := Some "/tmp/tmpk9x2";
     _service_name := "keystone";
     keystone_ips := ["10.5.0.11"; "10.5.0.12"];
     tls_rid := Some "certificates:7";
     default_api_version := "2" |}.

(** ** Class setup and the OVN setup

    Code that reads configuration dictionaries; a missing key raises
    [KeyError]. *)

Inductive setup_exn : Type :=
| KeyError (key : string)
| ExternalError (what : string).  (* raised by a function outside the sources *)

Inductive outcome (A : Type) : Type :=
| Returned (a : A)
| Raised (e : setup_exn).
Arguments Returned {A} a.
Arguments Raised {A} e.

(** [d[key]] *)
Definition getitem {V} (d : gmap string V) (key : string) : outcome V :=
  match d !! key with
  | Some v => Returned v
  | None => Raised (KeyError key)
  end.

(** The class attributes [setUpClass] reads and writes. *)
Record class_attrs : Type := {
  test_config : gmap string (gmap string (gmap string string));
  cls_tmp_dir : option string;
  cls_service_name : option string
}.

(** What [setUpClass] calls: the inherited [setUpClass], which sets
    [test_config], [openstack_utils.get_os_release], [cls.SkipTest] and
    [tempfile.mkdtemp]. *)
Record setup_env : Type := {
  super_setUpClass : option string -> class_attrs -> outcome class_attrs;
  get_os_release : option string -> outcome nat;
  SkipTest : string -> outcome unit;
  mkdtemp : outcome string
}.

Definition set_cls_tmp_dir (d : string) (cls : class_attrs) : class_attrs :=
  {| test_config := test_config cls; cls_tmp_dir := Some d;
     cls_service_name := cls_service_name cls |}.

Definition set_cls_service_name (v : string) (cls : class_attrs)
    : class_attrs :=
  {| test_config := test_config cls; cls_tmp_dir := cls_tmp_dir cls;
     cls_service_name := Some v |}.

(** [PolicydTest.setUpClass]: the attributes when it ends, and the
    exception it ends with, if any. *)
Definition setUpClass (X : setup_env) (application_name : option string)
    (cls : class_attrs) : class_attrs * option setup_exn :=
  match super_setUpClass X application_name cls with
  | Raised e => (cls, Some e)
  | Returned cls =>
  match get_os_release X None with
  | Raised e => (cls, Some e)
  | Returned release =>
  match get_os_release X (Some "xenial_queens") with
  | Raised e => (cls, Some e)
  | Returned xenial_queens =>
  match (if (release <? xenial_queens)%nat
         then SkipTest X "Test not valid before xenial_queens"
         else Returned tt) with
  | Raised e => (cls, Some e)
  | Returned _ =>
  match mkdtemp X with
  | Raised e => (cls, Some e)
  | Returned d =>
  let cls := set_cls_tmp_dir d cls in
  match getitem (test_config cls) "tests_options" with
  | Raised e => (cls, Some e)
  | Returned tests_options =>
  match getitem tests_options "policyd" with
  | Raised e => (cls, Some e)
  | Returned policyd =>
  match getitem policyd "service" with
  | Raised e => (cls, Some e)
  | Returned service => (set_cls_service_name service cls, None)
  end end end end end end end end.

(** The calls of [ovn.setup.initialize_vault]. *)
Inductive ovn_call : Type :=
| AutoInitialize          (* vault_setup.auto_initialize(validation_application=None) *)
| GetCharmConfig          (* zaza.charm_lifecycle.utils.get_charm_config() *)
| WaitForAgentStatus      (* zaza.model.wait_for_agent_status() *)
| WaitForApplicationStates. (* zaza.model.wait_for_application_states() *)

(** What the functions called answer: the charm configuration read, and the
    exception a call ends with, if any. *)
Record ovn_env : Type := {
  charm_config : gmap string (gmap string string);
  ovn_fails : ovn_call -> option setup_exn
}.

Record ovn_run : Type := {
  ovn_calls : list ovn_call;                         (* calls made, in order *)
  local_config : option (gmap string (gmap string string));
                                                     (* [test_config], once read *)
  ovn_raised : option setup_exn
}.

Definition ovn_call_then (O : ovn_env) (c : ovn_call) (r : ovn_run)
    (k : ovn_run -> ovn_run) : ovn_run :=
  let r1 := {| ovn_calls := ovn_calls r ++ [c];
               local_config := local_config r; ovn_raised := None |} in
  match ovn_fails O c with
  | Some e => {| ovn_calls := ovn_calls r1; local_config := local_config r1;
                 ovn_raised := Some e |}
  | None => k r1
  end.

Definition ovn_raise (e : setup_exn) (r : ovn_run) : ovn_run :=
  {| ovn_calls := ovn_calls r; local_config := local_config r;
     ovn_raised := Some e |}.

Definition ovn_set_config (cfg : gmap string (gmap string string))
    (r : ovn_run) : ovn_run :=
  {| ovn_calls := ovn_calls r; local_config := Some cfg;
     ovn_raised := ovn_raised r |}.

(** [initialize_vault] *)
Definition initialize_vault (O : ovn_env) : ovn_run :=
  ovn_call_then O AutoInitialize
    {| ovn_calls := []; local_config := None; ovn_raised := None |}
    (fun r =>
  ovn_call_then O GetCharmConfig r (fun r =>
  let test_config := charm_config O in
  let r := ovn_set_config test_config r in
  (* del test_config['target_deploy_status']['ovn'] *)
  match getitem test_config "target_deploy_status" with
  | Raised e => ovn_raise e r
  | Returned target_deploy_status =>
  match getitem target_deploy_status "ovn" with
  | Raised e => ovn_raise e r
  | Returned _ =>
  let r := ovn_set_config
             (<["target_deploy_status" := delete "ovn" target_deploy_status]>
                test_config) r in
  ovn_call_then O WaitForAgentStatus r (fun r =>
  ovn_call_then O WaitForApplicationStates r (fun r => r))
  end end)).

(** An environment for [setUpClass] in which the charm under test has no
    [policyd] options. *)
Definition setup_without_policyd : setup_env :=
  {| super_setUpClass := fun _ cls =>
       Returned {| test_config := {[ "tests_options" := ∅ ]};
                   cls_tmp_dir := cls_tmp_dir cls;
                   cls_service_name := cls_service_name cls |};
     get_os_release := fun _ => Returned 10;
     SkipTest := fun _ => Returned tt;
     mkdtemp := Returned "/tmp/tmpk9x2" |}.

Definition no_attrs : class_attrs :=
  {| test_config := ∅; cls_tmp_dir := None; cls_service_name := None |}.

(** A charm configuration without an [ovn] deploy status. *)
Definition ovn_without_status : ovn_env :=
  {| charm_config :=
       {[ "target_deploy_status" := {[ "vault" := "blocked" ]} ]};
     ovn_fails := fun _ => None |}.

Definition ovn_with_status : ovn_env :=
  {| charm_config :=
       {[ "target_deploy_status" :=
            <["ovn" := "waiting"]> {[ "vault" := "blocked" ]} ]};
     ovn_fails := fun _ => None |}.

(** Two configurations of the model differ at most in the key
    [use-policyd-override] of the application [app]. *)
Definition same_but_override (app : string)
    (c c' : gmap string (gmap string string)) : Prop :=
  (forall app', app' <> app -> c' !! app' = c !! app') /\
  (forall k, k <> "use-policyd-override" ->
             default ∅ (c' !! app) !! k = default ∅ (c !! app) !! k).

(** An operating system that refuses to remove the good zip file only. *)
Definition refusing_good_zip : env :=
  {| world := fun _ => plain; max_polls := 5;
     rm_fails := fun p => if String.eqb p "/tmp/tmpk9x2/good.zip"
                          then Some (OSError p) else None;
     consts := demo_consts |}.

(** * Properties *)

(** ** Strings and paths *)

Lemma append_cons (x : Ascii.ascii) (a b : string) :
  String x a +:+ b = String x (a +:+ b).
Proof. reflexivity. Qed.

Lemma append_assoc (a b c : string) : (a +:+ b) +:+ c = a +:+ (b +:+ c).
Proof.
  induction a as [|x a IH]; [done |].
  rewrite !append_cons. by f_equal.
Qed.


Lemma endswith_cons (c : Ascii.ascii) (s suf : string) :
  String.eqb (String c s) suf = false ->
  endswith (String c s) suf = endswith s suf.
Proof. intros H. simpl endswith. cbn in H. by rewrite H. Qed.

(** A non-empty tail decides whether a string ends with a slash. *)
Lemma endswith_slash_append (a s : string) :
  s <> "" -> endswith (a +:+ s) "/" = endswith s "/".
Proof.
  intros Hs. induction a as [|x a IH]; [done |].
  rewrite append_cons, endswith_cons; [done |].
  apply String.eqb_neq. intros [= _ H].
  destruct a; [by subst | by rewrite append_cons in H].
Qed.

Lemma append_nonempty (a s : string) : s <> "" -> a +:+ s <> "".
Proof. destruct a; [done | by rewrite append_cons]. Qed.

(** A plain name: not empty, neither starting nor ending with a slash. *)
Definition plain_name (s : string) : bool :=
  negb (String.eqb s "") && negb (startswith s "/") && negb (endswith s "/").

Lemma join_step_plain (path b : string) :
  path <> "" -> endswith path "/" = false -> startswith b "/" = false ->
  join_step path b = path +:+ "/" +:+ b.
Proof.
  intros Hp He Hb. unfold join_step. rewrite Hb, He.
  apply String.eqb_neq in Hp. by rewrite Hp.
Qed.


(** ** The archive *)

Lemma write_all_app (zfp : archive) (items : list (string * string)) :
  write_all zfp items = zfp ++ items.
Proof.
  revert zfp. induction items as [|[n c] items IH]; intros zfp; simpl.
  - by rewrite app_nil_r.
  - unfold write_all in *. simpl. rewrite IH. unfold writestr.
    by rewrite <- app_assoc.
Qed.

Lemma foldl_insert_list_to_map (l : list (string * string))
    (d : gmap string string) :
  NoDup l.*1 ->
  foldl (fun d e => <[e.1 := e.2]> d) d l = list_to_map l ∪ d.
Proof.
  revert d. induction l as [|[k v] l IH]; intros d Hnd; simpl.
  - by rewrite (left_id_L ∅ (∪)).
  - apply NoDup_cons in Hnd as [Hk Hnd].
    rewrite IH by done. rewrite <- insert_union_l.
    rewrite insert_union_r; [done |].
    by apply not_elem_of_list_to_map_1.
Qed.

(** Reading the archive written from a dictionary gives the dictionary
    back. *)
Lemma NameToInfo_map_to_list (files : gmap string string) :
  NameToInfo (map_to_list files) = files.
Proof.
  unfold NameToInfo.
  rewrite foldl_insert_list_to_map by apply NoDup_fst_map_to_list.
  rewrite list_to_map_to_list. apply (right_id_L ∅ (∪)).
Qed.


(** ** Running test code

    What a call that returned normally did to each component of the
    state. *)

Lemma bind_Ok {A B} (m : M A) (f : A -> M B) (s s' : state) (b : B) :
  (m ≫= f) s = Ok b s' -> exists a s1, m s = Ok a s1 /\ f a s1 = Ok b s'.
Proof.
  unfold mbind, M_bind, bind. destruct (m s) as [a s1|e s1]; [eauto | done].
Qed.

Lemma bind_eq_Ok {A B} (m : M A) (f : A -> M B) (s s1 : state) (a : A) :
  m s = Ok a s1 -> (m ≫= f) s = f a s1.
Proof. intros H. unfold mbind, M_bind, bind. by rewrite H. Qed.

Lemma bind_eq_Raise {A B} (m : M A) (f : A -> M B) (s s1 : state) (e : exn) :
  m s = Raise e s1 -> (m ≫= f) s = Raise e s1.
Proof. intros H. unfold mbind, M_bind, bind. by rewrite H. Qed.

Lemma poll_Some (E : env) (pred : snapshot -> bool) (fuel t t' : nat) :
  poll E pred fuel t = Some t' ->
  t <= t' < t + fuel /\ pred (world E t') = true.
Proof.
  revert t. induction fuel as [|fuel IH]; intros t; simpl; [done |].
  destruct (pred (world E t)) eqn:Hp.
  - intros [= <-]. split; [lia | done].
  - intros H. apply IH in H as [? ?]. split; [lia | done].
Qed.

(** A blocking call returns only at an observation that satisfies its
    predicate. *)
Lemma block_until_Ok (E : env) (c : call) (pred : snapshot -> bool)
    (s s' : state) :
  block_until E c pred s = Ok tt s' ->
  exists t, clock s <= t /\ pred (world E t) = true /\
    clock s' = S t /\ app_config s' = app_config s /\
    attached s' = attached s /\ scratch s' = scratch s /\
    trace s' = trace s ++ [c].
Proof.
  unfold block_until. destruct (poll _ _ _ _) as [t|] eqn:Hp; [| done].
  intros [= <-]. apply poll_Some in Hp as [? ?]. exists t.
  repeat split; [lia | done].
Qed.

Lemma set_application_config_Ok (app : string) (config : gmap string string)
    (s s' : state) :
  set_application_config app config s = Ok tt s' ->
  clock s' = S (clock s) /\
  app_config s'
    = <[app := config ∪ default ∅ (app_config s !! app)]> (app_config s) /\
  attached s' = attached s /\ scratch s' = scratch s /\
  trace s' = trace s ++ [SetApplicationConfig app config].
Proof. unfold set_application_config. by intros [= <-]. Qed.

Lemma attach_resource_Ok (app resource path : string) (s s' : state) :
  attach_resource app resource path s = Ok tt s' ->
  exists zfp, scratch s !! path = Some zfp /\
    clock s' = S (clock s) /\ app_config s' = app_config s /\
    attached s' = <[(app, resource) := zfp]> (attached s) /\
    scratch s' = scratch s /\
    trace s' = trace s ++ [AttachResource app resource path].
Proof.
  unfold attach_resource. destruct (scratch s !! path) as [zfp|]; [| done].
  intros [= <-]. by exists zfp.
Qed.

Lemma make_zip_file_from_Ok (self : test_case) (name : string)
    (files : gmap string string) (s s' : state) (path : string) :
  _make_zip_file_from self name files s = Ok path s' ->
  exists d, _tmp_dir self = Some d /\ path = os_path_join d [name] /\
    clock s' = clock s /\ app_config s' = app_config s /\
    attached s' = attached s /\
    scratch s' = <[path := map_to_list files]> (scratch s) /\
    trace s' = trace s.
Proof.
  unfold _make_zip_file_from, get_tmp_dir.
  destruct (_tmp_dir self) as [d|]; [| done].
  intros [= <- <-]. exists d. by rewrite write_all_app.
Qed.

Lemma make_zip_file_from_eq (self : test_case) (name d : string)
    (files : gmap string string) (s : state) :
  _tmp_dir self = Some d ->
  _make_zip_file_from self name files s
  = Ok (os_path_join d [name])
       (set_scratch (<[os_path_join d [name] := map_to_list files]> (scratch s))
                    s).
Proof.
  intros Hd. unfold _make_zip_file_from, get_tmp_dir. rewrite Hd.
  by rewrite write_all_app.
Qed.

(** The archive just written is the one found at its path. *)
Lemma written_then_read (fs fs' : gmap string archive) (path : string)
    (zfp zfp' : archive) :
  fs' = <[path := zfp]> fs -> fs' !! path = Some zfp' -> zfp' = zfp.
Proof. intros ->. rewrite lookup_insert_eq. by intros [= <-]. Qed.

(** ** The Bundle Builder *)



(** ** The file checks, unit by unit *)

Lemma file_missing_every_unit (app path : string) (w : snapshot) :
  file_missing app path w = true <->
  forall u, u ∈ units w app -> files u !! path = None.
Proof.
  unfold file_missing. rewrite forallb_forall. split.
  - intros H u Hu. apply list_elem_of_In, H in Hu.
    by destruct (files u !! path).
  - intros H u Hu. apply list_elem_of_In, H in Hu. by rewrite Hu.
Qed.

Lemma file_has_contents_every_unit (app path contents : string)
    (w : snapshot) :
  file_has_contents app path contents w = true <->
  forall u, u ∈ units w app ->
    exists c, files u !! path = Some c /\ str_in contents c = true.
Proof.
  unfold file_has_contents. rewrite forallb_forall. split.
  - intros H u Hu. apply list_elem_of_In, H in Hu.
    destruct (files u !! path) as [c|]; [by exists c | done].
  - intros H u Hu. apply list_elem_of_In, H in Hu as (c & -> & Hc). done.
Qed.

(** ** The generic tests *)

(** Splits the first call off a run that returned normally. *)
Ltac first_call H H1 :=
  cbv beta zeta in H;
  let a := fresh "a" in
  let s1 := fresh "s" in
  apply bind_Ok in H as (a & s1 & H1 & H);
  match type of a with
  | unit => destruct a
  | _ => idtac
  end.

Ltac waited H t Hp :=
  apply block_until_Ok in H as (t & ? & Hp & ? & ? & ? & ? & ?).

Ltac configured H :=
  unfold _set_config in H; cbv beta iota zeta in H;
  apply set_application_config_Ok in H as (? & ? & ? & ? & ?).

Ltac zipped H d Hd Hp :=
  apply make_zip_file_from_Ok in H as (d & Hd & Hp & ? & ? & ? & ? & ?).

Ltac attached_zip H :=
  let zfp := fresh "zfp" in
  let Hz := fresh "Hz" in
  apply attach_resource_Ok in H as (zfp & Hz & ? & ? & ? & ? & ?);
  match goal with
  | H1 : scratch ?s = <[?p := _]> _ |- _ =>
      pose proof (written_then_read _ _ _ _ _ H1 Hz); subst zfp
  end.

(** Rewrites a component of a later state down to the first state. *)
Ltac unroll :=
  repeat match goal with
         | H : attached ?s = _ |- context [attached ?s] => rewrite H
         | H : app_config ?s = _ |- context [app_config ?s] => rewrite H
         | H : trace ?s = _ |- context [trace ?s] => rewrite H
         end.





(** C9: when the bad-bundle test passes, the configuration of the
    application has [use-policyd-override] set to [True], whatever it was
    before the test: the last thing the test sets is the enabling
    configuration. *)
Theorem test_002_leaves_override_enabled (E : env) (self : test_case)
    (s s' : state) :
  test_002_policyd_bad_yaml E self s = Ok tt s' ->
  exists cfg, app_config s' !! application_name self = Some cfg /\
              cfg !! "use-policyd-override" = Some "True".
Proof.
  intros H. unfold test_002_policyd_bad_yaml in H.
  first_call H K1. zipped K1 d Hd Hzip.
  first_call H K2. attached_zip K2.
  first_call H K3. waited K3 t0 Hp0.
  first_call H K4. configured K4.
  first_call H K5. waited K5 t1 Hp1.
  first_call H K6. waited K6 ti Hpi.
  first_call H K7. waited K7 t2 Hp2.
  first_call H K8. configured K8.
  waited H t3 Hp3.
  eexists. split.
  - match goal with
    | Ha : app_config s' = _, Hb : app_config ?s0 = <[_ := _]> _ |- _ =>
        rewrite Ha, Hb
    end.
    apply lookup_insert_eq.
  - apply lookup_union_Some_l, lookup_singleton_eq.
Qed.

(** *** The generic tests on the recorded deployments *)

Lemma test_001_passes_on_good_run :
  test_001_policyd_good_yaml good_run keystone_case fresh
  = Ok tt (final_state (test_001_policyd_good_yaml good_run keystone_case fresh)).
Proof. vm_compute. reflexivity. Defined.





Lemma test_002_passes_from_override_off :
  test_002_policyd_bad_yaml bad_run keystone_case override_off
  = Ok tt (final_state
             (test_002_policyd_bad_yaml bad_run keystone_case override_off)).
Proof. vm_compute. reflexivity. Defined.

Lemma test_002_leaves_override_enabled_witness :
  (exists cfg, app_config override_off !! "keystone" = Some cfg /\
               cfg !! "use-policyd-override" = Some "False") /\
  exists s' cfg,
    test_002_policyd_bad_yaml bad_run keystone_case override_off = Ok tt s' /\
    app_config s' !! "keystone" = Some cfg /\
    cfg !! "use-policyd-override" = Some "True".
Proof.
  split.
  - eexists. split; reflexivity.
  - destruct (test_002_leaves_override_enabled bad_run keystone_case
                override_off _ test_002_passes_from_override_off)
      as (cfg & Hc & Hk).
    eexists _, cfg. split; [exact test_002_passes_from_override_off |].
    split; assumption.
Defined.

(** *** The Bundle Builder on concrete mappings *)




(** ** The keystone test *)

Lemma keystone_services_list_Ok (E : env) (openrc : gmap string string)
    (s s' : state) :
  keystone_services_list E openrc s = Ok tt s' ->
  services_list (world E (clock s)) openrc = Listed /\
  clock s' = S (clock s) /\ app_config s' = app_config s /\
  attached s' = attached s /\ scratch s' = scratch s /\
  trace s' = trace s ++ [ServicesList openrc].
Proof.
  unfold keystone_services_list.
  destruct (services_list _ _); [| done]. by intros [= <-].
Qed.

(** The verdict of one probe on the answer of the service, in both loops. *)
Lemma probe_override_enabled_eq (E : env) (self : test_case) (ip : string)
    (s : state) :
  probe_override_enabled E self ip s
  = let s1 := tick (record_call (ServicesList (openrc_for E self ip)) s) in
    match services_list (world E (clock s)) (openrc_for E self ip) with
    | Listed => Raise (PolicydError (should_have_failed ip)) s1
    | Failed Forbidden => Ok tt s1
    | Failed e => Raise e s1
    end.
Proof.
  unfold probe_override_enabled, try_except, mbind, M_bind, bind,
    keystone_services_list.
  destruct (services_list _ _) as [|[]]; reflexivity.
Qed.

Lemma probe_override_disabled_eq (E : env) (self : test_case) (ip : string)
    (s : state) :
  probe_override_disabled E self ip s
  = let s1 := tick (record_call (ServicesList (openrc_for E self ip)) s) in
    match services_list (world E (clock s)) (openrc_for E self ip) with
    | Listed => Ok tt s1
    | Failed Forbidden => Raise (PolicydError (should_have_passed ip)) s1
    | Failed e => Raise e s1
    end.
Proof.
  unfold probe_override_disabled, try_except, keystone_services_list.
  destruct (services_list _ _) as [|[]]; reflexivity.
Qed.

Section Loop.

(** A loop over the unit addresses whose body passes only on the answer
    [expected], and then only makes the one call. *)
Variable E : env.
Variable self : test_case.
Variable body : string -> M unit.
Variable expected : api_result.

Hypothesis body_Ok : forall ip s s',
  body ip s = Ok tt s' ->
  services_list (world E (clock s)) (openrc_for E self ip) = expected /\
  clock s' = S (clock s) /\ app_config s' = app_config s /\
  attached s' = attached s /\ scratch s' = scratch s /\
  trace s' = trace s ++ [ServicesList (openrc_for E self ip)].

Lemma for_each_probe_Ok (ips : list string) (s s' : state) :
  for_each ips body s = Ok tt s' ->
  clock s' = clock s + length ips /\ app_config s' = app_config s /\
  attached s' = attached s /\ scratch s' = scratch s /\
  trace s' = trace s ++ map (fun ip => ServicesList (openrc_for E self ip)) ips /\
  forall i ip, ips !! i = Some ip ->
    services_list (world E (clock s + i)) (openrc_for E self ip) = expected.
Proof.
  revert s. induction ips as [|ip ips IH]; intros s H.
  - injection H as <-. rewrite app_nil_r, Nat.add_0_r.
    repeat split; done.
  - cbn [for_each] in H. apply bind_Ok in H as ([] & s1 & H1 & H).
    apply body_Ok in H1 as (Hr & Hc & Ha & Hat & Hs & Ht).
    apply IH in H as (Hc' & Ha' & Hat' & Hs' & Ht' & Hall).
    rewrite Hc', Ha', Hat', Hs', Ht', Hc, Ha, Hat, Hs, Ht.
    cbn [length map]. rewrite <- app_assoc.
    repeat split; [lia |].
    intros [|i] ip' Hi.
    + injection Hi as <-. by rewrite Nat.add_0_r.
    + rewrite <- (Hall i ip' Hi). f_equal. f_equal. rewrite Hc. lia.
Qed.

End Loop.

Lemma probe_override_enabled_Ok (E : env) (self : test_case) (ip : string)
    (s s' : state) :
  probe_override_enabled E self ip s = Ok tt s' ->
  services_list (world E (clock s)) (openrc_for E self ip) = Failed Forbidden /\
  clock s' = S (clock s) /\ app_config s' = app_config s /\
  attached s' = attached s /\ scratch s' = scratch s /\
  trace s' = trace s ++ [ServicesList (openrc_for E self ip)].
Proof.
  rewrite probe_override_enabled_eq. cbv zeta.
  destruct (services_list _ _) as [|[]]; try done. by intros [= <-].
Qed.

Lemma probe_override_disabled_Ok (E : env) (self : test_case) (ip : string)
    (s s' : state) :
  probe_override_disabled E self ip s = Ok tt s' ->
  services_list (world E (clock s)) (openrc_for E self ip) = Listed /\
  clock s' = S (clock s) /\ app_config s' = app_config s /\
  attached s' = attached s /\ scratch s' = scratch s /\
  trace s' = trace s ++ [ServicesList (openrc_for E self ip)].
Proof.
  rewrite probe_override_disabled_eq. cbv zeta.
  destruct (services_list _ _) as [|[]]; try done. by intros [= <-].
Qed.

Lemma config_change_enter_Ok (app : string)
    (dflt alternate : gmap string string) (s s' : state) :
  config_change_enter app dflt alternate s = Ok tt s' ->
  clock s' = S (clock s) /\
  app_config s'
    = <[app := alternate ∪ default ∅ (app_config s !! app)]> (app_config s) /\
  attached s' = attached s /\ scratch s' = scratch s /\
  trace s' = trace s ++ [ConfigChangeEnter app dflt alternate].
Proof. unfold config_change_enter. by intros [= <-]. Qed.

Lemma config_change_exit_Ok (app : string)
    (dflt alternate : gmap string string) (s s' : state) :
  config_change_exit app dflt alternate s = Ok tt s' ->
  clock s' = S (clock s) /\
  app_config s'
    = <[app := dflt ∪ default ∅ (app_config s !! app)]> (app_config s) /\
  attached s' = attached s /\ scratch s' = scratch s /\
  trace s' = trace s ++ [ConfigChangeExit app dflt alternate].
Proof. unfold config_change_exit. by intros [= <-]. Qed.

Ltac entered H := apply config_change_enter_Ok in H as (? & ? & ? & ? & ?).
Ltac exited H := apply config_change_exit_Ok in H as (? & ? & ? & ? & ?).

(** A passing run of the keystone test: its calls, an observation at which
    the status line did not start with [PO:], and the answers of the
    service in the two loops, which start at the observations [c1] and
    [c2]. *)
Lemma test_disable_service_Ok (E : env) (self : test_case) (s s' : state) :
  test_disable_service E self s = Ok tt s' ->
  exists path t0 c1 c2,
    trace s' = trace s ++ test_disable_service_calls E self path /\
    clock s < t0 /\ t0 < c1 /\
    c1 + length (keystone_ips self) < c2 /\
    c2 + length (keystone_ips self) < clock s' /\
    startswith (wl_status_info (world E t0) (application_name self)) "PO:"
      = false /\
    (forall i ip, keystone_ips self !! i = Some ip ->
       services_list (world E (c1 + i)) (openrc_for E self ip)
       = Failed Forbidden) /\
    (forall i ip, keystone_ips self !! i = Some ip ->
       services_list (world E (c2 + i)) (openrc_for E self ip) = Listed).
Proof.
  intros H. unfold test_disable_service in H.
  first_call H K0. unfold _set_policy_with in K0.
  first_call K0 K1. zipped K1 d Hd Hzip.
  first_call K0 K2. attached_zip K2.
  first_call K0 K3. configured K3.
  waited K0 t0 Hp0.
  first_call H K4. unfold with_config_change in K4.
  first_call K4 K5. entered K5.
  first_call K4 K6.
  first_call K6 K7. waited K7 ta Hpa.
  apply (for_each_probe_Ok E self _ (Failed Forbidden)
           (probe_override_enabled_Ok E self)) in K6
    as (Hc1 & ? & ? & ? & ? & Hden).
  exited K4.
  unfold with_config_change in H.
  first_call H K8. entered K8.
  first_call H K9.
  first_call K9 K10. waited K10 tb Hpb.
  apply (for_each_probe_Ok E self _ Listed
           (probe_override_disabled_Ok E self)) in K9
    as (Hc2 & ? & ? & ? & ? & Hall).
  exited H.
  exists a, t0, (S ta), (S tb).
  split.
  { unroll. unfold test_disable_service_calls, probes.
    rewrite <- !app_assoc. reflexivity. }
  unfold wl_status_matches in Hp0. apply negb_true_iff in Hp0.
  repeat match goal with
         | Hx : clock ?x = S ?t |- _ => rewrite Hx in *
         end.
  repeat split; try lia; try done.
Qed.

Lemma for_each_app {A} (l1 l2 : list A) (body : A -> M unit) (s : state) :
  for_each (l1 ++ l2) body s
  = match for_each l1 body s with
    | Ok _ s1 => for_each l2 body s1
    | Raise e s1 => Raise e s1
    end.
Proof.
  revert s. induction l1 as [|x l1 IH]; intros s; [done |].
  cbn [for_each app]. unfold mbind, M_bind, bind.
  destruct (body x s) as [[] s1|e s1]; [apply IH | done].
Qed.

(** The loop stops at the first body that raises. *)
Lemma for_each_stops {A} (pre post : list A) (x : A) (body : A -> M unit)
    (s s1 s2 : state) (e : exn) :
  for_each pre body s = Ok tt s1 ->
  body x s1 = Raise e s2 ->
  for_each (pre ++ x :: post) body s = Raise e s2.
Proof.
  intros Hpre Hx. rewrite for_each_app, Hpre. cbn [for_each].
  by apply bind_eq_Raise.
Qed.

(** C5: one probe of the keystone test sorts the answer of the service three
    ways.  A listing is a failure of the loop run under the override
    ([PolicydError]) and a pass of the loop run without it; a [Forbidden]
    is a pass under the override and a [PolicydError] without it; any other
    failure [e] comes out of both as [e] itself, from the probe and from the
    loop around it, so it is taken neither for a denial nor for a
    listing. *)
Theorem probe_classification (E : env) (self : test_case) (ip : string)
    (s : state) :
  let openrc := openrc_for E self ip in
  let s1 := tick (record_call (ServicesList openrc) s) in
  match services_list (world E (clock s)) openrc with
  | Listed =>
      probe_override_enabled E self ip s
        = Raise (PolicydError (should_have_failed ip)) s1 /\
      probe_override_disabled E self ip s = Ok tt s1
  | Failed Forbidden =>
      probe_override_enabled E self ip s = Ok tt s1 /\
      probe_override_disabled E self ip s
        = Raise (PolicydError (should_have_passed ip)) s1
  | Failed e =>
      probe_override_enabled E self ip s = Raise e s1 /\
      probe_override_disabled E self ip s = Raise e s1 /\
      forall pre post s0,
        (for_each pre (probe_override_enabled E self) s0 = Ok tt s ->
         for_each (pre ++ ip :: post) (probe_override_enabled E self) s0
         = Raise e s1) /\
        (for_each pre (probe_override_disabled E self) s0 = Ok tt s ->
         for_each (pre ++ ip :: post) (probe_override_disabled E self) s0
         = Raise e s1)
  end.
Proof.
  intros openrc s1.
  pose proof (probe_override_enabled_eq E self ip s) as Hen.
  pose proof (probe_override_disabled_eq E self ip s) as Hdis.
  cbv zeta in Hen, Hdis. fold openrc in Hen, Hdis. fold s1 in Hen, Hdis.
  destruct (services_list (world E (clock s)) openrc) as [|[]];
    try (split; assumption);
    (split; [assumption |]; split; [assumption |];
     intros pre post s0; split; intros Hpre;
     eapply for_each_stops; eassumption).
Qed.


(** *** The keystone test on the recorded deployments *)

Lemma test_disable_service_passes_on_keystone_run :
  test_disable_service keystone_run keystone_case fresh
  = Ok tt (final_state (test_disable_service keystone_run keystone_case fresh)).
Proof. vm_compute. reflexivity. Defined.

(** Where the override is never enforced the test fails at the first
    address. *)
Lemma test_disable_service_fails_on_quiet_run :
  exists s',
    test_disable_service quiet_run keystone_case fresh
    = Raise (PolicydError (should_have_failed "10.5.0.11")) s'.
Proof. eexists. vm_compute. reflexivity. Qed.

(** Where the override is never withdrawn the test fails in the second
    loop. *)
Lemma test_disable_service_fails_on_stuck_run :
  exists s',
    test_disable_service stuck_run keystone_case fresh
    = Raise (PolicydError (should_have_passed "10.5.0.11")) s'.
Proof. eexists. vm_compute. reflexivity. Qed.


(** ** Disable transitions *)

Lemma override_True_not_off :
  sets_override_off {[ "use-policyd-override" := "True" ]} = false.
Proof. vm_compute. reflexivity. Qed.

Lemma override_False_off :
  sets_override_off {[ "use-policyd-override" := "False" ]} = true.
Proof. vm_compute. reflexivity. Qed.

Lemma double_check_follows_intro (app path : string) (rest : list call) :
  double_check_follows
    (BlockUntilWlStatusInfoStartsWith app "PO:" true
       :: BlockUntilAllUnitsIdle
       :: BlockUntilWlStatusInfoStartsWith app "PO:" true
       :: BlockUntilFileMissing app path :: rest) = true.
Proof.
  cbn [double_check_follows]. by rewrite !String.eqb_refl.
Qed.

Lemma none_selected_double_checked (disable : call -> bool)
    (calls : list call) :
  Forall (fun c => disable c = false) calls ->
  disables_double_checked disable calls = true.
Proof.
  induction 1 as [|c calls Hc _ IH]; [done |].
  cbn [disables_double_checked]. by rewrite Hc, IH.
Qed.

Lemma test_001_calls_double_checked (self : test_case) (path : string) :
  disables_double_checked is_set_config_off (test_001_calls self path) = true
  /\ existsb is_set_config_off (test_001_calls self path) = true.
Proof.
  unfold test_001_calls. cbv zeta.
  cbn [disables_double_checked existsb is_set_config_off].
  rewrite override_True_not_off, override_False_off.
  by rewrite double_check_follows_intro.
Qed.

Lemma test_002_calls_double_checked (self : test_case) (path : string) :
  disables_double_checked is_set_config_off (test_002_calls self path) = true.
Proof.
  unfold test_002_calls. cbv zeta.
  cbn [disables_double_checked is_set_config_off].
  by rewrite override_True_not_off.
Qed.

Lemma test_disable_service_calls_double_checked (E : env) (self : test_case)
    (path : string) :
  disables_double_checked is_set_config_off
    (test_disable_service_calls E self path) = true.
Proof.
  apply none_selected_double_checked. unfold test_disable_service_calls.
  assert (Forall (fun c => is_set_config_off c = false) (probes E self))
    as Hprobes.
  { unfold probes. apply Forall_fmap, Forall_true. done. }
  repeat first [ apply Forall_app; split | apply Forall_cons; split
               | apply Forall_nil | exact Hprobes
               | exact override_True_not_off | reflexivity ].
Qed.

Lemma test_001_trace (E : env) (self : test_case) (s s' : state) :
  test_001_policyd_good_yaml E self s = Ok tt s' ->
  exists path, trace s' = trace s ++ test_001_calls self path.
Proof.
  intros H. unfold test_001_policyd_good_yaml in H.
  first_call H K1. zipped K1 d Hd Hzip.
  first_call H K2. attached_zip K2.
  first_call H K3. waited K3 t0 Hp0.
  first_call H K4. configured K4.
  first_call H K5. waited K5 t1 Hp1.
  first_call H K6. waited K6 t2 Hp2.
  first_call H K7. configured K7.
  first_call H K8. waited K8 t3' Hp3'.
  first_call H K9. waited K9 ti Hpi.
  first_call H K10. waited K10 t3 Hp3.
  waited H t4 Hp4.
  exists a. unroll. unfold test_001_calls. cbv zeta.
  rewrite <- !app_assoc. reflexivity.
Qed.

Lemma test_002_trace (E : env) (self : test_case) (s s' : state) :
  test_002_policyd_bad_yaml E self s = Ok tt s' ->
  exists path, trace s' = trace s ++ test_002_calls self path.
Proof.
  intros H. unfold test_002_policyd_bad_yaml in H.
  first_call H K1. zipped K1 d Hd Hzip.
  first_call H K2. attached_zip K2.
  first_call H K3. waited K3 t0 Hp0.
  first_call H K4. configured K4.
  first_call H K5. waited K5 t1 Hp1.
  first_call H K6. waited K6 ti Hpi.
  first_call H K7. waited K7 t2 Hp2.
  first_call H K8. configured K8.
  waited H t3 Hp3.
  exists a. unroll. unfold test_002_calls. cbv zeta.
  rewrite <- !app_assoc. reflexivity.
Qed.

(** C2, as amended: in a passing run of each test method, every call that
    sets [use-policyd-override] to [False] through [_set_config] is followed
    at once by the wait for the status line not to start with [PO:], the
    wait for all units to be idle, the same wait for the status line again,
    and then the wait for a file to be missing; the good-bundle test makes
    such a call.  (The keystone test switches the override off by leaving
    its [config_change] block, and is not covered.) *)
Theorem set_config_off_is_double_checked (E : env) (self : test_case)
    (m : test_method) (s s' : state) :
  run_test E self m s = Ok tt s' ->
  exists calls,
    trace s' = trace s ++ calls /\
    disables_double_checked is_set_config_off calls = true /\
    (m = Test001PolicydGoodYaml -> existsb is_set_config_off calls = true).
Proof.
  destruct m; cbn [run_test]; intros H.
  - apply test_001_trace in H as [path H].
    exists (test_001_calls self path). split; [done |].
    destruct (test_001_calls_double_checked self path). by split.
  - apply test_002_trace in H as [path H].
    exists (test_002_calls self path). split; [done |].
    split; [apply test_002_calls_double_checked | done].
  - apply test_disable_service_Ok in H as (path & ? & ? & ? & H & _).
    exists (test_disable_service_calls E self path). split; [done |].
    split; [apply test_disable_service_calls_double_checked | done].
Qed.

Lemma set_config_off_is_double_checked_witness :
  exists s' calls,
    test_001_policyd_good_yaml good_run keystone_case fresh = Ok tt s' /\
    trace s' = calls /\
    disables_double_checked is_set_config_off calls = true /\
    existsb is_set_config_off calls = true.
Proof.
  destruct (set_config_off_is_double_checked good_run keystone_case
              Test001PolicydGoodYaml fresh _ test_001_passes_on_good_run)
    as (calls & Htrace & Hchecked & Hsome).
  eexists _, calls. split; [exact test_001_passes_on_good_run |].
  split; [exact Htrace |]. split; [exact Hchecked | exact (Hsome eq_refl)].
Defined.

(** C2, as stated, fails: the passing keystone test switches the override
    off when it leaves its first [config_change] block, whose default
    configuration has [use-policyd-override] at [False], and the next call
    is not a wait on the status line: it enters the second block. *)
Lemma keystone_disable_is_not_double_checked :
  exists s',
    test_disable_service keystone_run keystone_case fresh = Ok tt s' /\
    existsb is_restore_off (trace s') = true /\
    disables_double_checked is_disable (trace s') = false.
Proof.
  eexists. split; [exact test_disable_service_passes_on_keystone_run |].
  split; vm_compute; reflexivity.
Qed.

(** ** The helper that installs a policy *)

(** C4 fails on [_set_policy_with]: on a deployment whose status line never
    starts with [PO:] the helper returns normally, because the wait it ends
    with is the negated one. *)
Lemma set_policy_with_returns_without_override :
  (forall t,
     startswith (wl_status_info (world quiet_run t) "keystone") "PO:" = false)
  /\ exists s',
       _set_policy_with quiet_run keystone_case list_services_rule fresh
       = Ok tt s' /\
       last (trace s')
       = Some (BlockUntilWlStatusInfoStartsWith "keystone" "PO:" true).
Proof.
  split; [intros t; reflexivity |].
  eexists. split; vm_compute; reflexivity.
Qed.

(** ** Class teardown *)

Lemma unlink_other (path p : string) (s s' : state) :
  unlink path s = Ok tt s' -> p <> path -> scratch s' !! p = scratch s !! p.
Proof.
  unfold unlink. intros [= <-] Hp. cbn [scratch set_scratch].
  by rewrite lookup_delete_ne.
Qed.


Lemma rmdir_ignore_errors (dir : string) (s : state) :
  rmdir true dir s = Ok tt s.
Proof. unfold rmdir. by destruct (existsb _ _). Qed.




(** Without the attribute the [AttributeError] is caught as well. *)
Lemma tearDownClass_without_tmp_dir :
  tearDownClass refusing TestCase_tearDownClass unset_case left_behind = Ok tt left_behind.
Proof. reflexivity. Qed.

(** ** How the generic tests fail *)

















(** ** What the tests leave behind *)




(** X4: a passing good-bundle test leaves [use-policyd-override] at
    [False], and leaves the good bundle attached: the resource is never
    taken away again. *)
Theorem test_001_leaves_override_disabled (E : env) (self : test_case)
    (s s' : state) :
  test_001_policyd_good_yaml E self s = Ok tt s' ->
  (exists cfg,
     app_config s' !! application_name self = Some cfg /\
     cfg !! "use-policyd-override" = Some "False") /\
  exists zfp,
    attached s' !! (application_name self, "policyd-override") = Some zfp /\
    forall p, zip_read zfp p = good !! p.
Proof.
  intros H. unfold test_001_policyd_good_yaml in H.
  first_call H K1. zipped K1 d Hd Hzip.
  first_call H K2. attached_zip K2.
  first_call H K3. waited K3 t0 Hp0.
  first_call H K4. configured K4.
  first_call H K5. waited K5 t1 Hp1.
  first_call H K6. waited K6 t2 Hp2.
  first_call H K7. configured K7.
  first_call H K8. waited K8 t3' Hp3'.
  first_call H K9. waited K9 ti Hpi.
  first_call H K10. waited K10 t3 Hp3.
  waited H t4 Hp4.
  split.
  - eexists. split.
    + repeat match goal with
             | Ha : app_config ?x = app_config _ |- context [app_config ?x] =>
                 rewrite Ha
             end.
      match goal with
      | Hb : app_config ?x = <[_ := _]> _ |- context [app_config ?x] =>
          rewrite Hb
      end.
      apply lookup_insert_eq.
    + apply lookup_union_Some_l, lookup_singleton_eq.
  - exists (map_to_list good). split.
    + unroll. apply lookup_insert_eq.
    + intros p. unfold zip_read. by rewrite NameToInfo_map_to_list.
Qed.

Lemma test_001_leaves_override_disabled_witness :
  exists s' cfg,
    test_001_policyd_good_yaml good_run keystone_case fresh = Ok tt s' /\
    app_config s' !! "keystone" = Some cfg /\
    cfg !! "use-policyd-override" = Some "False".
Proof.
  destruct (test_001_leaves_override_disabled good_run keystone_case fresh _
              test_001_passes_on_good_run) as ((cfg & Hc & Hk) & _).
  eexists _, cfg. split; [exact test_001_passes_on_good_run |].
  split; assumption.
Defined.

Lemma prefix_String (a c : Ascii.ascii) (p s : string) :
  String.prefix (String a p) (String c s)
  = if Ascii.ascii_dec a c then String.prefix p s else false.
Proof. reflexivity. Qed.

Lemma prefix_cons_inv (a : Ascii.ascii) (p s : string) :
  String.prefix (String a p) s = true ->
  exists s', s = String a s' /\ String.prefix p s' = true.
Proof.
  destruct s as [|c s]; [discriminate |]. rewrite prefix_String.
  destruct (Ascii.ascii_dec a c) as [<- |]; [eauto | discriminate].
Qed.

(** X5: a status line that starts with [PO (broken):] does not start with
    [PO:], so it satisfies the negated wait that the good-bundle test and
    [_set_policy_with] make on [PO:]. *)
Theorem broken_status_satisfies_negated_wait (app : string) (w : snapshot) :
  startswith (wl_status_info w app) "PO (broken):" = true ->
  wl_status_matches app "PO:" true w = true.
Proof.
  unfold wl_status_matches, startswith. intros H.
  apply negb_true_iff.
  apply prefix_cons_inv in H as (s1 & -> & H).
  apply prefix_cons_inv in H as (s2 & -> & H).
  apply prefix_cons_inv in H as (s3 & -> & _).
  rewrite !prefix_String.
  repeat match goal with
         | |- context [Ascii.ascii_dec ?a ?b] =>
             destruct (Ascii.ascii_dec a b) as [Heq |];
             [try discriminate Heq; clear Heq | done]
         end.
Qed.

Lemma broken_status_satisfies_negated_wait_witness :
  startswith (wl_status_info broken "keystone") "PO (broken):" = true /\
  wl_status_matches "keystone" "PO:" true broken = true.
Proof.
  split; [reflexivity |].
  exact (broken_status_satisfies_negated_wait "keystone" broken eq_refl).
Defined.

(** ** Zip files side by side *)




(** ** What teardown removes *)

Lemma elem_of_keys_archive (fs : gmap string archive) (p : string) :
  p ∈ (map_to_list fs).*1 <-> is_Some (fs !! p).
Proof.
  rewrite list_elem_of_fmap. split.
  - intros [[k v] [-> H]]. apply elem_of_map_to_list in H. by exists v.
  - intros [v H]. exists (p, v). split; [done |].
    by apply elem_of_map_to_list.
Qed.

(** With errors ignored, the files of the list that the system lets go are
    gone afterwards and every other file is as before. *)
Lemma remove_files_effect (E : env) (paths : list string) (s : state) :
  exists s',
    remove_files E true paths s = Ok tt s' /\
    forall p,
      scratch s' !! p
      = match rm_fails E p with
        | None => if bool_decide (p ∈ paths) then None else scratch s !! p
        | Some _ => scratch s !! p
        end.
Proof.
  revert s. induction paths as [|q paths IH]; intros s.
  - exists s. split; [done |]. intros p. by destruct (rm_fails E p).
  - cbn [remove_files]. destruct (rm_fails E q) as [e|] eqn:Hq.
    + destruct (IH s) as (s' & Hrun & Heff). exists s'. split.
      * by rewrite (bind_eq_Ok (onerror true e) _ s s tt eq_refl).
      * intros p. rewrite Heff. destruct (rm_fails E p) eqn:Hp; [done |].
        assert (p <> q) as Hne by (intros ->; congruence).
        destruct (bool_decide_reflect (p ∈ paths)) as [Hin | Hin].
        -- rewrite bool_decide_eq_true_2; [done | by right].
        -- rewrite bool_decide_eq_false_2; [done |].
           intros Hc. apply elem_of_cons in Hc as [? | ?]; done.
    + destruct (IH (set_scratch (delete q (scratch s)) s))
        as (s' & Hrun & Heff).
      exists s'. split.
      * by rewrite (bind_eq_Ok (unlink q) _ s _ tt eq_refl).
      * intros p. rewrite Heff. cbn [scratch set_scratch].
        destruct (rm_fails E p) eqn:Hp.
        -- apply lookup_delete_ne. intros ->. congruence.
        -- destruct (bool_decide_reflect (p ∈ paths)) as [Hin | Hin].
           ++ rewrite bool_decide_eq_true_2; [done | by right].
           ++ destruct (decide (p = q)) as [-> | Hne].
              ** rewrite bool_decide_eq_true_2 by by left.
                 apply lookup_delete_eq.
              ** rewrite bool_decide_eq_false_2.
                 --- by apply lookup_delete_ne.
                 --- intros Hc. apply elem_of_cons in Hc as [? | ?]; done.
Qed.

(** X7: [tearDownClass], when the temporary directory itself is
    accessible, removes exactly the local files below it that the operating
    system lets go: those are gone afterwards, and a file whose removal the
    system refuses stays as it was, without any error coming out. *)
Theorem tearDownClass_removes_what_it_may (E : env)
    (super_tearDownClass : M unit) (cls : test_case) (d : string)
    (s s1 : state) :
  rm_fails E d = None ->
  super_tearDownClass s = Ok tt s1 ->
  _tmp_dir cls = Some d ->
  exists s',
    tearDownClass E super_tearDownClass cls s = Ok tt s' /\
    forall p, under d p = true ->
      scratch s' !! p
      = match rm_fails E p with
        | None => None
        | Some _ => scratch s1 !! p
        end.
Proof.
  intros Hrm Hsuper Hd. unfold tearDownClass.
  rewrite (bind_eq_Ok _ _ s s1 tt Hsuper).
  unfold try_except, get_tmp_dir. rewrite Hd.
  rewrite (bind_eq_Ok _ _ s1 s1 d eq_refl).
  unfold rmtree. rewrite Hrm.
  destruct (remove_files_effect E
              (filter (fun p => under d p = true)
                      (map_to_list (scratch s1)).*1) s1)
    as (s' & Hrun & Heff).
  exists s'. split.
  - unfold mbind, M_bind, bind. cbv beta. rewrite Hrun.
    by rewrite rmdir_ignore_errors.
  - intros p Hp. rewrite Heff. destruct (rm_fails E p); [done |].
    destruct (scratch s1 !! p) as [z|] eqn:Hz.
    + rewrite bool_decide_eq_true_2; [done |].
      apply list_elem_of_filter. split; [done |].
      apply elem_of_keys_archive. by exists z.
    + by destruct (bool_decide _).
Qed.

Lemma tearDownClass_removes_what_it_may_witness :
  exists s',
    tearDownClass refusing_good_zip TestCase_tearDownClass keystone_case
      left_behind = Ok tt s' /\
    scratch s' !! "/tmp/tmpk9x2/good.zip"
    = scratch left_behind !! "/tmp/tmpk9x2/good.zip" /\
    scratch s' !! "/tmp/tmpk9x2/bad.zip" = None.
Proof.
  destruct (tearDownClass_removes_what_it_may refusing_good_zip
              TestCase_tearDownClass keystone_case "/tmp/tmpk9x2"
              left_behind left_behind eq_refl eq_refl eq_refl)
    as (s' & Hrun & Heff).
  exists s'. split; [exact Hrun |].
  split; [exact (Heff "/tmp/tmpk9x2/good.zip" eq_refl)
         | exact (Heff "/tmp/tmpk9x2/bad.zip" eq_refl)].
Defined.

(** ** The probe loops *)

Lemma probe_override_enabled_Raise (E : env) (self : test_case) (ip : string)
    (s : state) :
  services_list (world E (clock s)) (openrc_for E self ip) <> Failed Forbidden ->
  exists e,
    probe_override_enabled E self ip s
    = Raise e (tick (record_call (ServicesList (openrc_for E self ip)) s)).
Proof.
  intros Hans. rewrite probe_override_enabled_eq. cbv zeta.
  destruct (services_list _ _) as [|[]]; try (eexists; reflexivity).
  by destruct Hans.
Qed.

Lemma probe_override_disabled_Raise (E : env) (self : test_case) (ip : string)
    (s : state) :
  services_list (world E (clock s)) (openrc_for E self ip) <> Listed ->
  exists e,
    probe_override_disabled E self ip s
    = Raise e (tick (record_call (ServicesList (openrc_for E self ip)) s)).
Proof.
  intros Hans. rewrite probe_override_disabled_eq. cbv zeta.
  destruct (services_list _ _) as [|[]]; try (eexists; reflexivity).
  by destruct Hans.
Qed.

(** X8: both probe loops stop at the first address whose answer is not the
    expected one: the loop raises there, one listing was asked of every
    address up to and including that one, in order, and none of the
    addresses after it. *)
Theorem probe_loops_stop_at_first_failure (E : env) (self : test_case)
    (pre post : list string) (ip : string) :
  (forall s s1,
     for_each pre (probe_override_enabled E self) s = Ok tt s1 ->
     services_list (world E (clock s1)) (openrc_for E self ip)
     <> Failed Forbidden ->
     exists e s2,
       for_each (pre ++ ip :: post) (probe_override_enabled E self) s
       = Raise e s2 /\
       trace s2
       = trace s
         ++ map (fun a => ServicesList (openrc_for E self a)) (pre ++ [ip]) /\
       clock s2 = clock s + S (length pre)) /\
  (forall s s1,
     for_each pre (probe_override_disabled E self) s = Ok tt s1 ->
     services_list (world E (clock s1)) (openrc_for E self ip) <> Listed ->
     exists e s2,
       for_each (pre ++ ip :: post) (probe_override_disabled E self) s
       = Raise e s2 /\
       trace s2
       = trace s
         ++ map (fun a => ServicesList (openrc_for E self a)) (pre ++ [ip]) /\
       clock s2 = clock s + S (length pre)).
Proof.
  split; intros s s1 Hpre Hans.
  - destruct (probe_override_enabled_Raise E self ip s1 Hans) as [e He].
    exists e. eexists. split; [by eapply for_each_stops |].
    apply (for_each_probe_Ok E self _ (Failed Forbidden)
             (probe_override_enabled_Ok E self)) in Hpre
      as (Hc & _ & _ & _ & Ht & _).
    cbn [trace clock tick set_clock record_call].
    rewrite Ht, Hc, map_app, <- app_assoc. split; [done | lia].
  - destruct (probe_override_disabled_Raise E self ip s1 Hans) as [e He].
    exists e. eexists. split; [by eapply for_each_stops |].
    apply (for_each_probe_Ok E self _ Listed
             (probe_override_disabled_Ok E self)) in Hpre
      as (Hc & _ & _ & _ & Ht & _).
    cbn [trace clock tick set_clock record_call].
    rewrite Ht, Hc, map_app, <- app_assoc. split; [done | lia].
Qed.

(** ** The keystone test without addresses *)

Lemma always_Ok_bind (m k : M unit) :
  always_Ok m -> always_Ok k -> always_Ok (m ;; k).
Proof.
  intros Hm Hk s. destruct (Hm s) as [s1 H1]. destruct (Hk s1) as [s2 H2].
  exists s2. by rewrite (bind_eq_Ok _ _ s s1 tt H1).
Qed.

Lemma poll_now (E : env) (pred : snapshot -> bool) (fuel t : nat) :
  pred (world E t) = true -> 0 < fuel -> poll E pred fuel t = Some t.
Proof. intros Hp Hf. destruct fuel; [lia |]. cbn [poll]. by rewrite Hp. Qed.

Lemma block_until_always_Ok (E : env) (c : call) (pred : snapshot -> bool) :
  0 < max_polls E -> (forall t, pred (world E t) = true) ->
  always_Ok (block_until E c pred).
Proof.
  intros Hf Hp s. unfold block_until. rewrite poll_now by done. eauto.
Qed.

Lemma attach_after_zip (app resource path : string) (zfp : archive)
    (fs : gmap string archive) (s : state) :
  attach_resource app resource path (set_scratch (<[path := zfp]> fs) s)
  = Ok tt (tick (set_attached app resource zfp
                   (record_call (AttachResource app resource path)
                      (set_scratch (<[path := zfp]> fs) s)))).
Proof.
  unfold attach_resource. cbn [scratch set_scratch].
  by rewrite lookup_insert_eq.
Qed.

Lemma set_policy_with_always_Ok (E : env) (self : test_case) (d : string)
    (rules : gmap string string) :
  _tmp_dir self = Some d -> 0 < max_polls E ->
  (forall t, startswith (wl_status_info (world E t) (application_name self))
               "PO:" = false) ->
  always_Ok (_set_policy_with E self rules).
Proof.
  intros Hd Hf Hst s. unfold _set_policy_with.
  rewrite (bind_eq_Ok _ _ s _ _ (make_zip_file_from_eq self _ d rules s Hd)).
  assert (always_Ok
            (_set_config self true ;;
             block_until_wl_status_info_starts_with E (application_name self)
               "PO:" true)) as Hrest.
  { apply always_Ok_bind; [intros s0; by eexists |].
    apply block_until_always_Ok; [done |].
    intros t. unfold wl_status_matches. by rewrite Hst. }
  cbv beta.
  rewrite (bind_eq_Ok _ _ _ _ tt (attach_after_zip _ _ _ _ _ _)).
  apply Hrest.
Qed.

(** X9: a keystone class without unit addresses passes the keystone test on
    any deployment whose units are idle and whose status line does not
    start with [PO:], whatever the service answers: no listing is asked at
    all. *)
Theorem test_disable_service_passes_without_addresses (E : env)
    (self : test_case) (d : string) (s : state) :
  keystone_ips self = [] ->
  _tmp_dir self = Some d ->
  0 < max_polls E ->
  (forall t, all_units_idle (world E t) = true) ->
  (forall t, startswith (wl_status_info (world E t) (application_name self))
               "PO:" = false) ->
  exists s' path,
    test_disable_service E self s = Ok tt s' /\
    trace s' = trace s ++ test_disable_service_calls E self path /\
    Forall (fun c => forall openrc, c <> ServicesList openrc)
           (test_disable_service_calls E self path).
Proof.
  intros Hips Hd Hf Hidle Hst.
  assert (always_Ok (test_disable_service E self)) as Hok.
  { unfold test_disable_service, with_config_change. rewrite Hips.
    cbn [for_each].
    assert (always_Ok (block_until_all_units_idle E ;; ret tt)) as Hbody.
    { apply always_Ok_bind; [| intros s0; eexists; reflexivity].
      by apply block_until_always_Ok. }
    repeat first
      [ exact Hbody
      | by eapply set_policy_with_always_Ok
      | apply always_Ok_bind
      | intros s0; eexists; reflexivity ]. }
  destruct (Hok s) as [s' Hrun]. exists s'.
  pose proof Hrun as Hcalls.
  apply test_disable_service_Ok in Hcalls as (path & ? & ? & ? & Htr & _).
  exists path. split; [exact Hrun |]. split; [exact Htr |].
  unfold test_disable_service_calls, probes. rewrite Hips. cbn [map app].
  repeat constructor; discriminate.
Qed.

Lemma test_disable_service_passes_without_addresses_witness :
  exists s',
    test_disable_service quiet_run no_units_case fresh = Ok tt s' /\
    forall t openrc, services_list (world quiet_run t) openrc = Listed.
Proof.
  destruct (test_disable_service_passes_without_addresses quiet_run
              no_units_case "/tmp/tmpk9x2" fresh eq_refl eq_refl)
    as (s' & path & Hrun & _).
  - cbn. lia.
  - intros t. reflexivity.
  - intros t. reflexivity.
  - exists s'. split; [exact Hrun | intros t openrc; reflexivity].
Defined.

(** ** The credentials of a probe *)

Lemma replace_from_absent (old new s : string) :
  str_in old s = false -> replace_from old new 0 s = s.
Proof.
  induction s as [|c s IH]; [done |].
  cbn [str_in replace_from]. intros H.
  apply orb_false_iff in H as [Hp Hs]. rewrite Hp. by rewrite IH.
Qed.

Lemma append_nil_l (s : string) : "" +:+ s = s.
Proof. reflexivity. Qed.

(** No occurrence of [http] can end in the port suffix. *)
Lemma prefix_http_port (a : string) :
  String.prefix "http" a = false ->
  String.prefix "http" (a +:+ ":5000/v3") = false.
Proof.
  destruct a as [|c1 [|c2 [|c3 [|c4 a]]]];
    rewrite ?append_cons, ?append_nil_l, ?prefix_String; intros H;
    repeat match goal with
           | |- context [Ascii.ascii_dec ?x ?y] =>
               destruct (Ascii.ascii_dec x y); [| done]
           end;
    try done.
  by destruct a.
Qed.

Lemma str_in_http_port (ip : string) :
  str_in "http" ip = false -> str_in "http" (ip +:+ ":5000/v3") = false.
Proof.
  induction ip as [|c ip IH]; [done |].
  intros H. cbn [str_in] in H. apply orb_false_iff in H as [Hp Hs].
  rewrite append_cons. cbn [str_in]. apply orb_false_iff. split.
  - rewrite <- append_cons. by apply prefix_http_port.
  - by apply IH.
Qed.

(** The scheme of the URL built for an address is replaced, and nothing
    else, when [http] does not occur in the address. *)
Lemma auth_url_https (ip : string) :
  str_in "http" ip = false ->
  str_replace ("http://" +:+ ip +:+ ":5000/v3") "http" "https"
  = "https://" +:+ ip +:+ ":5000/v3".
Proof.
  intros H. unfold str_replace.
  rewrite !append_cons, !append_nil_l.
  cbn [replace_from String.length Nat.sub]. rewrite !prefix_String.
  repeat match goal with
         | |- context [Ascii.ascii_dec ?x ?y] =>
             destruct (Ascii.ascii_dec x y) as [Heq |];
             [try discriminate Heq; clear Heq | try done]
         end.
  cbn [String.prefix].
  rewrite replace_from_absent by by apply str_in_http_port.
  reflexivity.
Qed.

Ltac lookup_key :=
  repeat first
    [ rewrite lookup_insert_eq
    | rewrite lookup_insert_ne by discriminate
    | rewrite lookup_singleton_eq
    | rewrite lookup_singleton_ne by discriminate ].

(** X10: the credentials built for a unit address in which [http] does not
    occur.  With a TLS relation the authentication URL is
    [https://<ip>:5000/v3] and the CA certificate is given; without one, or
    with an empty relation id, the URL is [http://<ip>:5000/v3] and no
    certificate is given.  The user, password and domains are the demo
    administrator's either way. *)
Theorem openrc_for_address (E : env) (self : test_case) (ip : string) :
  str_in "http" ip = false ->
  let openrc := openrc_for E self ip in
  openrc !! "OS_AUTH_URL"
  = Some ((if truthy (tls_rid self) then "https://" else "http://")
          +:+ ip +:+ ":5000/v3") /\
  openrc !! "OS_CACERT"
  = (if truthy (tls_rid self)
     then Some (KEYSTONE_LOCAL_CACERT (consts E)) else None) /\
  openrc !! "API_VERSION" = Some "3" /\
  openrc !! "OS_USERNAME" = Some (DEMO_ADMIN_USER (consts E)) /\
  openrc !! "OS_PASSWORD" = Some (DEMO_ADMIN_USER_PASSWORD (consts E)) /\
  openrc !! "OS_USER_DOMAIN_NAME" = Some (DEMO_DOMAIN (consts E)) /\
  openrc !! "OS_DOMAIN_NAME" = Some (DEMO_DOMAIN (consts E)).
Proof.
  intros Hip openrc. subst openrc. unfold openrc_for. cbv zeta.
  destruct (truthy (tls_rid self)).
  - repeat split; lookup_key; try reflexivity.
    cbn [default]. unfold id. by rewrite auth_url_https.
  - repeat split; lookup_key; reflexivity.
Qed.

Lemma openrc_for_address_witness :
  str_in "http" "10.5.0.11" = false /\
  openrc_for keystone_run tls_case "10.5.0.11" !! "OS_AUTH_URL"
  = Some "https://10.5.0.11:5000/v3" /\
  openrc_for keystone_run keystone_case "10.5.0.11" !! "OS_AUTH_URL"
  = Some "http://10.5.0.11:5000/v3".
Proof.
  split; [reflexivity |]. split.
  - exact (proj1 (openrc_for_address keystone_run tls_case "10.5.0.11"
                    eq_refl)).
  - exact (proj1 (openrc_for_address keystone_run keystone_case "10.5.0.11"
                    eq_refl)).
Defined.

(** In a host name every occurrence of [http] is replaced, not the scheme
    alone. *)
Lemma openrc_for_host_name_with_http :
  openrc_for keystone_run tls_case "httpd.example" !! "OS_AUTH_URL"
  = Some "https://httpsd.example:5000/v3".
Proof. vm_compute. reflexivity. Qed.

(** ** Class setup *)

(** X11: [setUpClass], once the inherited setup, the release look-ups, the
    call of [cls.SkipTest] (made on releases before xenial_queens only) and
    [mkdtemp] have returned.  It looks up [tests_options], [policyd] and
    [service] in turn and raises [KeyError] for the first one that is
    missing; the temporary directory is created before the look-ups, so it
    is set in that case too, while the service name is not.  With all three
    keys present both attributes are set. *)
Theorem setUpClass_reads_service (X : setup_env)
    (application_name : option string) (cls cls1 : class_attrs)
    (release xenial_queens : nat) (d : string) :
  super_setUpClass X application_name cls = Returned cls1 ->
  get_os_release X None = Returned release ->
  get_os_release X (Some "xenial_queens") = Returned xenial_queens ->
  (release < xenial_queens ->
   SkipTest X "Test not valid before xenial_queens" = Returned tt) ->
  mkdtemp X = Returned d ->
  let created := set_cls_tmp_dir d cls1 in
  setUpClass X application_name cls
  = match test_config cls1 !! "tests_options" with
    | None => (created, Some (KeyError "tests_options"))
    | Some tests_options =>
        match tests_options !! "policyd" with
        | None => (created, Some (KeyError "policyd"))
        | Some policyd =>
            match policyd !! "service" with
            | None => (created, Some (KeyError "service"))
            | Some service => (set_cls_service_name service created, None)
            end
        end
    end.
Proof.
  intros Hsuper Hrel Hq Hskip Hd created. unfold setUpClass.
  rewrite Hsuper, Hrel, Hq.
  assert ((if (release <? xenial_queens)%nat
           then SkipTest X "Test not valid before xenial_queens"
           else Returned tt) = Returned tt) as ->.
  { destruct (Nat.ltb_spec release xenial_queens); [by apply Hskip | done]. }
  rewrite Hd. cbv zeta. unfold getitem.
  change (test_config (set_cls_tmp_dir d cls1)) with (test_config cls1).
  destruct (test_config cls1 !! "tests_options") as [o|]; [| done].
  destruct (o !! "policyd") as [p|]; [| done].
  by destruct (p !! "service").
Qed.

Lemma setUpClass_reads_service_witness :
  setUpClass setup_without_policyd None no_attrs
  = ({| test_config := {[ "tests_options" := ∅ ]};
        cls_tmp_dir := Some "/tmp/tmpk9x2"; cls_service_name := None |},
     Some (KeyError "policyd")).
Proof.
  rewrite (setUpClass_reads_service setup_without_policyd None no_attrs
             {| test_config := {[ "tests_options" := ∅ ]};
                cls_tmp_dir := None; cls_service_name := None |}
             10 10 "/tmp/tmpk9x2" eq_refl eq_refl eq_refl
             (fun _ => eq_refl) eq_refl).
  reflexivity.
Defined.

(** ** The OVN setup *)

(** X12: [initialize_vault], when the functions it calls return.  It
    initializes vault and reads the charm configuration; if the
    configuration has no [target_deploy_status], or that has no [ovn]
    entry, the deletion raises [KeyError] for the missing key and neither
    wait is made.  Otherwise the [ovn] entry, and nothing else, is deleted
    from the configuration just read, and the two waits follow in order. *)
Theorem initialize_vault_deletes_ovn_status (O : ovn_env) :
  (forall c, ovn_fails O c = None) ->
  initialize_vault O
  = match charm_config O !! "target_deploy_status" with
    | None =>
        {| ovn_calls := [AutoInitialize; GetCharmConfig];
           local_config := Some (charm_config O);
           ovn_raised := Some (KeyError "target_deploy_status") |}
    | Some target_deploy_status =>
        match target_deploy_status !! "ovn" with
        | None =>
            {| ovn_calls := [AutoInitialize; GetCharmConfig];
               local_config := Some (charm_config O);
               ovn_raised := Some (KeyError "ovn") |}
        | Some _ =>
            {| ovn_calls := [AutoInitialize; GetCharmConfig;
                             WaitForAgentStatus; WaitForApplicationStates];
               local_config :=
                 Some (<["target_deploy_status" :=
                           delete "ovn" target_deploy_status]>
                         (charm_config O));
               ovn_raised := None |}
        end
    end.
Proof.
  intros Hext. unfold initialize_vault, ovn_call_then. rewrite !Hext.
  cbv beta zeta. unfold getitem.
  destruct (charm_config O !! "target_deploy_status") as [tds|]; [| done].
  destruct (tds !! "ovn"); [| done].
  reflexivity.
Qed.

Lemma initialize_vault_deletes_ovn_status_witness :
  (forall c, ovn_fails ovn_without_status c = None) /\
  initialize_vault ovn_without_status
  = {| ovn_calls := [AutoInitialize; GetCharmConfig];
       local_config := Some (charm_config ovn_without_status);
       ovn_raised := Some (KeyError "ovn") |}.
Proof.
  split; [reflexivity |].
  exact (initialize_vault_deletes_ovn_status ovn_without_status
           (fun _ => eq_refl)).
Defined.

(** ** What the generic tests leave alone *)

Lemma same_but_override_refl (app : string)
    (c : gmap string (gmap string string)) :
  same_but_override app c c.
Proof. by split. Qed.

Lemma same_but_override_step (app value : string)
    (c0 c c' : gmap string (gmap string string)) :
  same_but_override app c0 c ->
  c' = <[app := {[ "use-policyd-override" := value ]} ∪ default ∅ (c !! app)]> c ->
  same_but_override app c0 c'.
Proof.
  intros [Happ Hkey] ->. split.
  - intros app' Hne. rewrite lookup_insert_ne by done. by apply Happ.
  - intros k Hk. rewrite lookup_insert_eq.
    change (default ∅ (Some ?x)) with x.
    rewrite lookup_union_r by by apply lookup_singleton_ne.
    by apply Hkey.
Qed.

Lemma same_but_override_eq (app : string)
    (c0 c c' : gmap string (gmap string string)) :
  same_but_override app c0 c -> c' = c -> same_but_override app c0 c'.
Proof. by intros H ->. Qed.

(** Carries [same_but_override] from the first state to the last one along
    the equations of the calls. *)
Ltac carry_config :=
  repeat match goal with
         | Hs : same_but_override _ (app_config ?s0) (app_config ?s1),
           Hc : app_config ?s2 = app_config ?s1 |- _ =>
             pose proof (same_but_override_eq _ _ _ _ Hs Hc);
             clear Hs Hc
         | Hs : same_but_override _ (app_config ?s0) (app_config ?s1),
           Hc : app_config ?s2 = <[_ := _]> (app_config ?s1) |- _ =>
             pose proof (same_but_override_step _ _ _ _ _ Hs Hc);
             clear Hs Hc
         end.

(** X13: a passing generic test changes the configuration of the model in
    one place at most, the key [use-policyd-override] of the application
    under test: every other key of that application and every other
    application are as before. *)
Theorem generic_tests_touch_one_key (E : env) (self : test_case)
    (m : test_method) (s s' : state) :
  m <> TestDisableService ->
  run_test E self m s = Ok tt s' ->
  same_but_override (application_name self) (app_config s) (app_config s').
Proof.
  intros Hm H.
  pose proof (same_but_override_refl (application_name self) (app_config s))
    as Hstart.
  destruct m; [| | done]; cbn [run_test] in H.
  - unfold test_001_policyd_good_yaml in H.
    first_call H K1. zipped K1 d Hd Hzip.
    first_call H K2. attached_zip K2.
    first_call H K3. waited K3 t0 Hp0.
    first_call H K4. configured K4.
    first_call H K5. waited K5 t1 Hp1.
    first_call H K6. waited K6 t2 Hp2.
    first_call H K7. configured K7.
    first_call H K8. waited K8 t3' Hp3'.
    first_call H K9. waited K9 ti Hpi.
    first_call H K10. waited K10 t3 Hp3.
    waited H t4 Hp4.
    carry_config. assumption.
  - unfold test_002_policyd_bad_yaml in H.
    first_call H K1. zipped K1 d Hd Hzip.
    first_call H K2. attached_zip K2.
    first_call H K3. waited K3 t0 Hp0.
    first_call H K4. configured K4.
    first_call H K5. waited K5 t1 Hp1.
    first_call H K6. waited K6 ti Hpi.
    first_call H K7. waited K7 t2 Hp2.
    first_call H K8. configured K8.
    waited H t3 Hp3.
    carry_config. assumption.
Qed.

Lemma generic_tests_touch_one_key_witness :
  exists s',
    test_002_policyd_bad_yaml bad_run keystone_case override_off = Ok tt s' /\
    same_but_override "keystone" (app_config override_off) (app_config s').
Proof.
  eexists. split; [exact test_002_passes_from_override_off |].
  apply (generic_tests_touch_one_key bad_run keystone_case
           Test002PolicydBadYaml override_off _).
  - discriminate.
  - exact test_002_passes_from_override_off.
Defined.

(** ** The policy path for other service names *)

(** X14: the path the generic tests compute for a policy file of a service
    whose name is not a plain one.  For the empty name it is
    [/etc/policy.d/<file>], with no doubled slash; for a name that starts
    with a slash it is [<service>/policy.d/<file>], outside [/etc]. *)
Theorem policy_path_other_names (service file : string) :
  plain_name file = true ->
  (service = "" ->
   os_path_join "/etc" [service; "policy.d"; file]
   = "/etc/policy.d/" +:+ file) /\
  (startswith service "/" = true -> endswith service "/" = false ->
   os_path_join "/etc" [service; "policy.d"; file]
   = service +:+ "/policy.d/" +:+ file).
Proof.
  unfold plain_name. intros Hf.
  apply andb_prop in Hf as [Hf _]. apply andb_prop in Hf as [_ Hf].
  apply negb_true_iff in Hf.
  split.
  - intros ->. unfold os_path_join. cbn [foldl].
    unfold join_step at 2 3. cbn [startswith String.prefix].
    change (join_step ("/etc" +:+ "/" +:+ "") "policy.d")
      with "/etc/policy.d".
    unfold join_step. by rewrite Hf.
  - intros Hs He.
    assert (service <> "") as Hne by by intros ->.
    unfold os_path_join. cbn [foldl].
    unfold join_step at 3. rewrite Hs.
    rewrite (join_step_plain service "policy.d"); [| done | done | done].
    rewrite (join_step_plain _ file); [| | | done].
    + by rewrite !append_assoc.
    + by apply append_nonempty.
    + by rewrite endswith_slash_append.
Qed.

Lemma policy_path_other_names_witness :
  os_path_join "/etc" [""; "policy.d"; "file1.yaml"]
  = "/etc/policy.d/file1.yaml" /\
  os_path_join "/etc" ["/opt/keystone"; "policy.d"; "file1.yaml"]
  = "/opt/keystone/policy.d/file1.yaml".
Proof.
  destruct (policy_path_other_names "" "file1.yaml" eq_refl) as [H1 _].
  destruct (policy_path_other_names "/opt/keystone" "file1.yaml" eq_refl)
    as [_ H2].
  split; [exact (H1 eq_refl) | exact (H2 eq_refl eq_refl)].
Defined.
